(** * Frellis Cup scoring engine

    A shallow embedding of the scoring functions of [src/TournamentApp.jsx]
    and [src/tournamentPrototype.js]: handicap allocation, the three per-hole
    format engines, the two match-status trackers, the points allocator and
    the per-match step of the tournament aggregator.

    Conventions.
    - JS integers are [Z]; [null]/[undefined] is [None]; a JS object used as
      a dictionary is a [gmap]; an object literal with computed keys
      [{ [k1]: v1, [k2]: v2 }] inserts [k1] first and [k2] second.
    - Team points (0, 0.5, 1 and their sums) are [Q]; they are dyadic, so the
      rational arithmetic is exactly the arithmetic of the JS numbers.
    - A template literal [`${n}`] of an integer is [pretty n]. *)

From Stdlib Require Import ZArith QArith Lia Lqa.
From stdpp Require Import base option list strings pretty gmap fin_maps.

#[local] Set Warnings "-clear-no-such-hyp".
#[local] Open Scope string_scope.
#[local] Open Scope Z_scope.

(** ** Handicap allocation and Stableford points
    (identical text in both source files) *)

(** [stablefordFromDiff(diff)], [diff = gross - par]. *)
Definition stablefordFromDiff (diff : Z) : Z :=
  if diff <=? -3 then 10
  else if diff =? -2 then 6
  else if diff =? -1 then 3
  else if diff =? 0 then 1
  else if diff =? 1 then -1
  else -2.

(** [Math.floor(courseHcp / 18)] is [Z.div]; JS [%] truncates towards zero,
    which is [Z.rem]. *)
Definition strokesReceivedOnHole (courseHcp holeHcpRank : Z) : Z :=
  let full := courseHcp / 18 in
  let rem := Z.rem courseHcp 18 in
  let extra := if holeHcpRank <=? rem then 1 else 0 in
  full + extra.

Definition netScore (gross : option Z) (courseHcp holeHcpRank : Z) : option Z :=
  match gross with
  | None => None
  | Some g =>
      let sr := strokesReceivedOnHole courseHcp holeHcpRank in
      Some (g - sr)
  end.

(** ** Data model *)

Module Side.
Record t := mk { id : string; teamId : string; playerIds : list string }.
End Side.

Module Player.
Record t := mk { id : string; teamId : string; courseHcp : Z }.
End Player.

(** One entry of a course's [holes] array: [{ hole, par, hcpRank }]. *)
Module Hole.
Record t := mk { hole : Z; par : Z; hcpRank : Z }.
End Hole.

(** Raw score storage [store[key][hole] -> gross]; the field itself may be
    missing from the match document. *)
Abbreviation GrossStore := (option (gmap string (gmap Z Z))).

Module Match.
Record t := mk {
  format : string;
  sideA : Side.t;
  sideB : Side.t;
  fourballGrossByPlayer : GrossStore;
  scrambleGrossBySide : GrossStore;
  singlesGrossByPlayer : GrossStore }.
End Match.

(** The [{ pid, gross, net }] objects of the fourball engine. *)
Module NetEntry.
Record t := mk { pid : string; gross : option Z; net : option Z }.
End NetEntry.

(** The [details] object, tagged by its [type] field. *)
Inductive Details :=
  | fourball (aBest bBest : option NetEntry.t)
  | scramble (aGross bGross aPts bPts : option Z)
  | singles (aGross bGross aNet bNet : option Z).

Module HoleResult.
Record t := mk {
  hole : Z;
  played : bool;
  winnerSideId : option string;
  details : Details }.
End HoleResult.

(** The [{ played, winnerSideId }] objects handed to [matchStatusFromHoles]. *)
Module Outcome.
Record t := mk { played : bool; winnerSideId : option string }.
End Outcome.

(** The tally fields of a status: [aHoles]/[bHoles] for match play,
    [aTotalPts]/[bTotalPts] for the Stableford totals. *)
Inductive Tally :=
  | holesTally (aHoles bHoles : Z)
  | pointsTally (aTotalPts bTotalPts : Z).

Module Status.
Record t := mk {
  tally : Tally;
  played : Z;
  isFinal : bool;
  text : string;
  leaderSideId : option string;
  isTied : bool }.
End Status.

(** ** Match status trackers *)

(** Body of the [for (const h of holes)] loop over [(a, b, played)]. *)
Definition tallyStep (sideAId sideBId : string) (acc : Z * Z * Z)
    (h : Outcome.t) : Z * Z * Z :=
  let '(a, b, played) := acc in
  if negb (Outcome.played h) then acc
  else
    let played := played + 1 in
    if bool_decide (Outcome.winnerSideId h = Some sideAId) then (a + 1, b, played)
    else if bool_decide (Outcome.winnerSideId h = Some sideBId) then (a, b + 1, played)
    else (a, b, played).

Definition tallyHoles (holes : list Outcome.t) (sideAId sideBId : string)
    : Z * Z * Z :=
  fold_left (tallyStep sideAId sideBId) holes (0, 0, 0).

Definition matchStatusFromHoles (holes : list Outcome.t)
    (sideAId sideBId : string) : Status.t :=
  let '(a, b, played) := tallyHoles holes sideAId sideBId in
  let remaining := 18 - played in
  let diff := a - b in
  let abs := Z.abs diff in
  let leader := if 0 <? diff then "A" else if diff <? 0 then "B" else "AS" in
  if (remaining <? abs) && (0 <? played) then
    let up := abs in
    let toPlay := remaining in
    {| Status.tally := holesTally a b;
       Status.played := played;
       Status.isFinal := true;
       Status.text :=
         if String.eqb leader "AS" then "Final (Tied)"
         else "Final " +:+ pretty up +:+ "&" +:+ pretty toPlay;
       Status.leaderSideId := Some (if 0 <? diff then sideAId else sideBId);
       Status.isTied := false |}
  else if played =? 0 then
    {| Status.tally := holesTally 0 0;
       Status.played := 0;
       Status.isFinal := false;
       Status.text := "Not Started";
       Status.leaderSideId := None;
       Status.isTied := true |}
  else if played =? 18 then
    if diff =? 0 then
      {| Status.tally := holesTally a b;
         Status.played := played;
         Status.isFinal := true;
         Status.text := "Final (Tied)";
         Status.leaderSideId := None;
         Status.isTied := true |}
    else
      {| Status.tally := holesTally a b;
         Status.played := played;
         Status.isFinal := true;
         Status.text := "Final " +:+ pretty abs +:+ " Up";
         Status.leaderSideId := Some (if 0 <? diff then sideAId else sideBId);
         Status.isTied := false |}
  else if diff =? 0 then
    {| Status.tally := holesTally a b;
       Status.played := played;
       Status.isFinal := false;
       Status.text := "AS Thru " +:+ pretty played;
       Status.leaderSideId := None;
       Status.isTied := true |}
  else
    {| Status.tally := holesTally a b;
       Status.played := played;
       Status.isFinal := false;
       Status.text := pretty abs +:+ " Up Thru " +:+ pretty played;
       Status.leaderSideId := Some (if 0 <? diff then sideAId else sideBId);
       Status.isTied := false |}.

(** Body of the loop of [stablefordTotalsStatusFromHoles] over
    [(aTotal, bTotal, played)]: a hole counts when it is played, its details
    are of type "scramble" and both point values are present. *)
Definition totalsStep (acc : Z * Z * Z) (h : HoleResult.t) : Z * Z * Z :=
  let '(aTotal, bTotal, played) := acc in
  if negb (HoleResult.played h) then acc
  else
    match HoleResult.details h with
    | scramble _ _ (Some aPts) (Some bPts) =>
        (aTotal + aPts, bTotal + bPts, played + 1)
    | _ => acc
    end.

Definition stablefordTotals (matchHoles : list HoleResult.t) : Z * Z * Z :=
  fold_left totalsStep matchHoles (0, 0, 0).

Definition stablefordTotalsStatusFromHoles (matchHoles : list HoleResult.t)
    (sideAId sideBId : string) : Status.t :=
  let '(aTotal, bTotal, played) := stablefordTotals matchHoles in
  if played =? 0 then
    {| Status.tally := pointsTally 0 0;
       Status.played := 0;
       Status.isFinal := false;
       Status.text := "—";
       Status.leaderSideId := None;
       Status.isTied := true |}
  else
    let diff := aTotal - bTotal in
    let leaderSideId :=
      if 0 <? diff then Some sideAId else if diff <? 0 then Some sideBId else None in
    let isTied := diff =? 0 in
    {| Status.tally := pointsTally aTotal bTotal;
       Status.played := played;
       Status.isFinal := played =? 18;
       Status.text := pretty aTotal +:+ "–" +:+ pretty bTotal;
       Status.leaderSideId := leaderSideId;
       Status.isTied := isTied |}.

(** ** Points allocator *)

(** [pointsForFinalMatch] of [src/TournamentApp.jsx]: the tie test reads
    [status.isTied]. *)
Definition pointsForFinalMatch (status : Status.t) (sideA sideB : Side.t)
    : gmap string Q :=
  if negb (Status.isFinal status) then
    <[Side.teamId sideB := 0%Q]> {[ Side.teamId sideA := 0%Q ]}
  else if Status.isTied status then
    <[Side.teamId sideB := (1#2)%Q]> {[ Side.teamId sideA := (1#2)%Q ]}
  else
    let winnerSideId := Status.leaderSideId status in
    let winnerTeam :=
      if bool_decide (winnerSideId = Some (Side.id sideA))
      then Side.teamId sideA else Side.teamId sideB in
    let loserTeam :=
      if bool_decide (winnerTeam = Side.teamId sideA)
      then Side.teamId sideB else Side.teamId sideA in
    <[loserTeam := 0%Q]> {[ winnerTeam := 1%Q ]}.

(** [String.prototype.includes]: [search] occurs somewhere in [s]. *)
Fixpoint includes (s search : string) : bool :=
  String.prefix search s ||
  match s with
  | EmptyString => false
  | String _ s' => includes s' search
  end.

Module Prototype.
(** [pointsForFinalMatch] of [src/tournamentPrototype.js]: the tie test
    reads the label, [status.text.includes("Tied")]. *)
Definition pointsForFinalMatch (status : Status.t) (sideA sideB : Side.t)
    : gmap string Q :=
  if negb (Status.isFinal status) then
    <[Side.teamId sideB := 0%Q]> {[ Side.teamId sideA := 0%Q ]}
  else if includes (Status.text status) "Tied" then
    <[Side.teamId sideB := (1#2)%Q]> {[ Side.teamId sideA := (1#2)%Q ]}
  else
    let winnerSideId := Status.leaderSideId status in
    let winnerTeam :=
      if bool_decide (winnerSideId = Some (Side.id sideA))
      then Side.teamId sideA else Side.teamId sideB in
    let loserTeam :=
      if bool_decide (winnerTeam = Side.teamId sideA)
      then Side.teamId sideB else Side.teamId sideA in
    <[loserTeam := 0%Q]> {[ winnerTeam := 1%Q ]}.
End Prototype.

(** ** Courses *)

(** [parArr.map((par, i) => ({ hole: i + 1, par, hcpRank: hcpArr[i] }))].
    Both arrays of every course have 18 entries; past the end of [hcpArr]
    the source leaves [hcpRank] undefined, for which [Hole.t] has no value,
    so the model stops at the shorter array. *)
Definition holesFromParAndHcp (parArr hcpArr : list Z) : list Hole.t :=
  imap (fun i '(par, hcpRank) => Hole.mk (Z.of_nat i + 1) par hcpRank)
       (zip parArr hcpArr).

(** [COURSES[2].holes], Lookout Mountain Golf Club. *)
Definition COURSES_2_holes : list Hole.t :=
  holesFromParAndHcp
    [4; 5; 3; 4; 5; 3; 5; 4; 3; 4; 3; 4; 4; 4; 5; 3; 4; 5]
    [11; 9; 15; 3; 7; 13; 1; 5; 17; 4; 12; 2; 18; 8; 16; 6; 14; 10].

(** ** Format engines: [computeMatchHoles] *)

(** [store?.[key]?.[hole] ?? null]. *)
Definition lookupGross (store : GrossStore) (key : string) (hole : Z)
    : option Z :=
  per ← (g ← store; g !! key); per !! hole.

(** [ToNumber] of a number-or-null, and [<] on two of them. *)
Definition toNumber (x : option Z) : Z := default 0 x.
Definition jsLt (x y : option Z) : bool := toNumber x <? toNumber y.

(** A property key: the array read [playerIds[0]] of an empty array is
    [undefined], which as a key is the string "undefined". *)
Definition propertyKey (k : option string) : string := default "undefined" k.

(** [p ? netScore(gross, p.courseHcp, h.hcpRank) : null]. *)
Definition playerNet (p : option Player.t) (gross : option Z) (h : Hole.t)
    : option Z :=
  match p with
  | Some p => netScore gross (Player.courseHcp p) (Hole.hcpRank h)
  | None => None
  end.

(** [ids.map(pid => { pid, gross, net }).filter(x => x.gross != null &&
    x.net != null)]. *)
Definition sideNets (getGross : string -> option Z)
    (playersById : gmap string Player.t) (h : Hole.t) (ids : list string)
    : list NetEntry.t :=
  filter (fun x => is_Some (NetEntry.gross x) /\ is_Some (NetEntry.net x))
    (map (fun pid =>
            let gross := getGross pid in
            let p := playersById !! pid in
            let net := playerNet p gross h in
            NetEntry.mk pid gross net) ids).

(** The reducer [(best, cur) => best == null || cur.net < best.net ? cur :
    best]. *)
Definition bestStep (best : option NetEntry.t) (cur : NetEntry.t)
    : option NetEntry.t :=
  match best with
  | None => Some cur
  | Some b => if jsLt (NetEntry.net cur) (NetEntry.net b) then Some cur else Some b
  end.

Definition bestOf (nets : list NetEntry.t) : option NetEntry.t :=
  fold_left bestStep nets None.

(** The three branches of the callback of [holes.map]. A result [None] is a
    thrown [TypeError]: the only property read on a possibly-null value is
    [aBest.net] / [bBest.net]. *)
Definition fourballHole (m : Match.t) (playersById : gmap string Player.t)
    (h : Hole.t) : option HoleResult.t :=
  let hole := Hole.hole h in
  let aP := Side.playerIds (Match.sideA m) in
  let bP := Side.playerIds (Match.sideB m) in
  let getGross := fun pid => lookupGross (Match.fourballGrossByPlayer m) pid hole in
  let aNets := sideNets getGross playersById h aP in
  let bNets := sideNets getGross playersById h bP in
  if (length aNets =? 0)%nat || (length bNets =? 0)%nat then
    Some {| HoleResult.hole := hole;
            HoleResult.played := false;
            HoleResult.winnerSideId := None;
            HoleResult.details := fourball None None |}
  else
    aBest ← bestOf aNets;
    bBest ← bestOf bNets;
    let winner :=
      if jsLt (NetEntry.net aBest) (NetEntry.net bBest)
      then Some (Side.id (Match.sideA m))
      else if jsLt (NetEntry.net bBest) (NetEntry.net aBest)
      then Some (Side.id (Match.sideB m))
      else None in
    Some {| HoleResult.hole := hole;
            HoleResult.played := true;
            HoleResult.winnerSideId := winner;
            HoleResult.details := fourball (Some aBest) (Some bBest) |}.

Definition scrambleHole (m : Match.t) (h : Hole.t) : HoleResult.t :=
  let hole := Hole.hole h in
  let getSideGross := fun sideId => lookupGross (Match.scrambleGrossBySide m) sideId hole in
  let aGross := getSideGross (Side.id (Match.sideA m)) in
  let bGross := getSideGross (Side.id (Match.sideB m)) in
  match aGross, bGross with
  | Some ag, Some bg =>
      let aPts := stablefordFromDiff (ag - Hole.par h) in
      let bPts := stablefordFromDiff (bg - Hole.par h) in
      let winner :=
        if bPts <? aPts then Some (Side.id (Match.sideA m))
        else if aPts <? bPts then Some (Side.id (Match.sideB m))
        else None in
      {| HoleResult.hole := hole;
         HoleResult.played := true;
         HoleResult.winnerSideId := winner;
         HoleResult.details := scramble aGross bGross (Some aPts) (Some bPts) |}
  | _, _ =>
      {| HoleResult.hole := hole;
         HoleResult.played := false;
         HoleResult.winnerSideId := None;
         HoleResult.details := scramble None None None None |}
  end.

Definition singlesHole (m : Match.t) (playersById : gmap string Player.t)
    (h : Hole.t) : HoleResult.t :=
  let hole := Hole.hole h in
  let aPid := propertyKey (head (Side.playerIds (Match.sideA m))) in
  let bPid := propertyKey (head (Side.playerIds (Match.sideB m))) in
  let aGross := lookupGross (Match.singlesGrossByPlayer m) aPid hole in
  let bGross := lookupGross (Match.singlesGrossByPlayer m) bPid hole in
  match aGross, bGross with
  | Some _, Some _ =>
      let aP := playersById !! aPid in
      let bP := playersById !! bPid in
      let aNet := playerNet aP aGross h in
      let bNet := playerNet bP bGross h in
      let winner :=
        match aNet, bNet with
        | Some _, Some _ =>
            if jsLt aNet bNet then Some (Side.id (Match.sideA m))
            else if jsLt bNet aNet then Some (Side.id (Match.sideB m))
            else None
        | _, _ => None
        end in
      {| HoleResult.hole := hole;
         HoleResult.played := true;
         HoleResult.winnerSideId := winner;
         HoleResult.details := singles aGross bGross aNet bNet |}
  | _, _ =>
      {| HoleResult.hole := hole;
         HoleResult.played := false;
         HoleResult.winnerSideId := None;
         HoleResult.details := singles None None None None |}
  end.

Definition computeHole (m : Match.t) (playersById : gmap string Player.t)
    (h : Hole.t) : option HoleResult.t :=
  if String.eqb (Match.format m) "FOURBALL_NET" then fourballHole m playersById h
  else if String.eqb (Match.format m) "SCRAMBLE_STABLEFORD" then Some (scrambleHole m h)
  else Some (singlesHole m playersById h).

(** [computeMatchHoles(match, holes, playersById)]; [None] when the callback
    throws on some hole. *)
Definition computeMatchHoles (m : Match.t) (holes : list Hole.t)
    (playersById : gmap string Player.t) : option (list HoleResult.t) :=
  mapM (computeHole m playersById) holes.

(** ** Tournament aggregator, per match *)

(** [x => ({ played: x.played, winnerSideId: x.winnerSideId })]. *)
Definition outcomeOf (x : HoleResult.t) : Outcome.t :=
  Outcome.mk (HoleResult.played x) (HoleResult.winnerSideId x).

(** The status selection of [computeTournamentTotals] and [MatchPage];
    the points of the match are then
    [pointsForFinalMatch status m.sideA m.sideB]. *)
Definition statusOf (m : Match.t) (mh : list HoleResult.t) : Status.t :=
  if String.eqb (Match.format m) "SCRAMBLE_STABLEFORD"
  then stablefordTotalsStatusFromHoles mh
         (Side.id (Match.sideA m)) (Side.id (Match.sideB m))
  else matchStatusFromHoles (map outcomeOf mh)
         (Side.id (Match.sideA m)) (Side.id (Match.sideB m)).

(** The accumulation of a match's points into the day totals,
    [jc += pts.JC ?? 0; sg += pts.SG ?? 0]. *)
Definition addPoints (acc : Q * Q) (pts : gmap string Q) : Q * Q :=
  let '(jc, sg) := acc in
  ((jc + default 0 (pts !! "JC"))%Q, (sg + default 0 (pts !! "SG"))%Q).

(** ** Sample tournament of [makeInitialTournament] *)

(** [Object.fromEntries(players.map(p => [p.id, p]))]: a later player with
    the same id replaces an earlier one. *)
Definition playersByIdOf (players : list Player.t) : gmap string Player.t :=
  fold_left (fun acc p => <[Player.id p := p]> acc) players ∅.

(** [SAMPLE_ROSTER_SLOTS] with the ids [p1 .. p20] given by position. *)
Definition samplePlayers : list Player.t :=
  [ Player.mk "p1" "JC" 13; Player.mk "p2" "JC" 8; Player.mk "p3" "JC" 12;
    Player.mk "p4" "JC" 4; Player.mk "p5" "JC" 14; Player.mk "p6" "JC" 17;
    Player.mk "p7" "JC" 20; Player.mk "p8" "JC" 22; Player.mk "p9" "JC" 22;
    Player.mk "p10" "JC" 28; Player.mk "p11" "SG" 23; Player.mk "p12" "SG" 3;
    Player.mk "p13" "SG" 6; Player.mk "p14" "SG" 12; Player.mk "p15" "SG" 14;
    Player.mk "p16" "SG" 15; Player.mk "p17" "SG" 20; Player.mk "p18" "SG" 21;
    Player.mk "p19" "SG" 28; Player.mk "p20" "SG" 17 ].

Definition samplePlayersById : gmap string Player.t :=
  playersByIdOf samplePlayers.

(** Match 1 of each day, with the raw score store of its format given and
    the stores of the other formats absent. *)
Definition d1m1 (grossByPlayer : gmap string (gmap Z Z)) : Match.t :=
  {| Match.format := "FOURBALL_NET";
     Match.sideA := Side.mk "d1m1-A" "JC" ["p1"; "p2"];
     Match.sideB := Side.mk "d1m1-B" "SG" ["p11"; "p12"];
     Match.fourballGrossByPlayer := Some grossByPlayer;
     Match.scrambleGrossBySide := None;
     Match.singlesGrossByPlayer := None |}.

Definition d2m1 (grossBySide : gmap string (gmap Z Z)) : Match.t :=
  {| Match.format := "SCRAMBLE_STABLEFORD";
     Match.sideA := Side.mk "d2m1-A" "JC" ["p1"; "p2"];
     Match.sideB := Side.mk "d2m1-B" "SG" ["p11"; "p12"];
     Match.fourballGrossByPlayer := None;
     Match.scrambleGrossBySide := Some grossBySide;
     Match.singlesGrossByPlayer := None |}.

Definition d3m1 (aPlayer : string) (grossByPlayer : gmap string (gmap Z Z))
    : Match.t :=
  {| Match.format := "SINGLES_NET";
     Match.sideA := Side.mk "d3m1-A" "JC" [aPlayer];
     Match.sideB := Side.mk "d3m1-B" "SG" ["p11"];
     Match.fourballGrossByPlayer := None;
     Match.scrambleGrossBySide := None;
     Match.singlesGrossByPlayer := Some grossByPlayer |}.

(** A scorecard [{ 1: g1, 2: g2, ... }] from the list of its gross scores. *)
Definition scorecard (grosses : list Z) : gmap Z Z :=
  list_to_map (imap (fun i g => (Z.of_nat i + 1, g)) grosses).

(** Sixteen pars and two bogeys on course 2, for either side: 14 points. *)
Definition parsThenTwoBogeys : gmap Z Z :=
  scorecard [4; 5; 3; 4; 5; 3; 5; 4; 3; 4; 3; 4; 4; 4; 5; 3; 5; 6].

Definition tiedScramble : Match.t :=
  d2m1 (<["d2m1-B" := parsThenTwoBogeys]> {[ "d2m1-A" := parsThenTwoBogeys ]}).

(** Hole 1 of course 1: par 4, handicap rank 12. *)
Definition course1Hole1 : Hole.t := Hole.mk 1 4 12.

(** Hole 1 of the first fourball match: p1 takes 5 and p2 takes 4 for side
    A, p11 takes 6 for side B, p12 has no entry. *)
Definition fourballOpening : Match.t :=
  d1m1 (<["p11" := scorecard [6]]>
        (<["p2" := scorecard [4]]> {[ "p1" := scorecard [5] ]})).

(** ** Vocabulary of the statements *)

(** The tallies in the spec's words: holes with an outcome, and holes with
    an outcome won by a given side. *)
Definition holesPlayed (holes : list Outcome.t) : Z :=
  Z.of_nat (length (filter (fun h => Outcome.played h = true) holes)).

Definition holesWonBy (sid : string) (holes : list Outcome.t) : Z :=
  Z.of_nat (length (filter (fun h => Outcome.played h = true /\
                                     Outcome.winnerSideId h = Some sid) holes)).

(** The side that is ahead when the tallies differ. *)
Definition sideAhead (a b : Z) (sideAId sideBId : string) : string :=
  if b <? a then sideAId else sideBId.

(** Hole outcomes used in examples: a hole won by a side and a hole without
    outcome. *)
Definition wonBy (sid : string) : Outcome.t := Outcome.mk true (Some sid).
Definition notPlayed : Outcome.t := Outcome.mk false None.


Definition netOf (gross : string -> option Z)
    (playersById : gmap string Player.t) (h : Hole.t) (pid : string)
    : option Z :=
  g ← gross pid;
  p ← playersById !! pid;
  Some (g - strokesReceivedOnHole (Player.courseHcp p) (Hole.hcpRank h)).



(** Scramble-Stableford, in the spec's words: a side's gross on a hole, the
    holes actually played (both entries present) and a side's cumulative
    points over them. *)
Definition sideGross (m : Match.t) (sid : string) (h : Hole.t) : option Z :=
  lookupGross (Match.scrambleGrossBySide m) sid (Hole.hole h).

Definition scramblePlayed (m : Match.t) (h : Hole.t) : Prop :=
  is_Some (sideGross m (Side.id (Match.sideA m)) h) /\
  is_Some (sideGross m (Side.id (Match.sideB m)) h).

Definition scramblePlayedHoles (m : Match.t) (holes : list Hole.t)
    : list Hole.t :=
  filter (scramblePlayed m) holes.

Definition sidePointsOn (m : Match.t) (sid : string) (h : Hole.t) : Z :=
  match sideGross m sid h with
  | Some g => stablefordFromDiff (g - Hole.par h)
  | None => 0
  end.

Definition cumulativePoints (m : Match.t) (sid : string)
    (holes : list Hole.t) : Z :=
  foldr Z.add 0 (map (sidePointsOn m sid) (scramblePlayedHoles m holes)).

(** The two team point values of a points object, added up, and the point
    a match is worth: 1 once final, 0 before. *)
Definition pointsTotal (sideA sideB : Side.t) (pts : gmap string Q) : Q :=
  (default 0 (pts !! Side.teamId sideA) + default 0 (pts !! Side.teamId sideB))%Q.

Definition matchWorth (status : Status.t) : Q :=
  if Status.isFinal status then 1%Q else 0%Q.

(** An object with one value per team, whichever key was written first. *)
Definition twoKeys (tA tB : string) (x y : Q) (pts : gmap string Q) : Prop :=
  pts = <[tB := y]> {[ tA := x ]} \/ pts = <[tA := x]> {[ tB := y ]}.

(** Missing references. A player is usable on a hole when the gross mapping
    has an entry for it and the players map has its record. *)
Definition usable (gross : string -> option Z)
    (playersById : gmap string Player.t) (pid : string) : Prop :=
  is_Some (gross pid) /\ is_Some (playersById !! pid).

(** The [details] of a hole that is not played, per format. *)
Definition unplayedDetails (format : string) : Details :=
  if String.eqb format "FOURBALL_NET" then fourball None None
  else if String.eqb format "SCRAMBLE_STABLEFORD" then scramble None None None None
  else singles None None None None.

(** Fourball: the hole is played iff each side has a usable player, and a
    best ball is always a usable player of its side. *)
Definition fourballDegrades (m : Match.t) (playersById : gmap string Player.t)
    (h : Hole.t) (r : HoleResult.t) : Prop :=
  let gross := fun pid =>
    lookupGross (Match.fourballGrossByPlayer m) pid (Hole.hole h) in
  let aIds := Side.playerIds (Match.sideA m) in
  let bIds := Side.playerIds (Match.sideB m) in
  (HoleResult.played r = true <->
   (exists pid, pid ∈ aIds /\ usable gross playersById pid) /\
   (exists pid, pid ∈ bIds /\ usable gross playersById pid)) /\
  (forall ea eb, HoleResult.details r = fourball ea eb ->
     (forall e, ea = Some e ->
                NetEntry.pid e ∈ aIds /\ usable gross playersById (NetEntry.pid e)) /\
     (forall e, eb = Some e ->
                NetEntry.pid e ∈ bIds /\ usable gross playersById (NetEntry.pid e))).

(** Scramble: the hole is played iff both side ids have a gross entry. *)
Definition scrambleDegrades (m : Match.t) (h : Hole.t) (r : HoleResult.t)
    : Prop :=
  HoleResult.played r = true <-> scramblePlayed m h.

(** Singles: the hole is played iff both players have a gross entry; a
    player without a record then has a null net and the hole no winner. *)
Definition singlesDegrades (m : Match.t) (playersById : gmap string Player.t)
    (h : Hole.t) (r : HoleResult.t) : Prop :=
  let aPid := propertyKey (head (Side.playerIds (Match.sideA m))) in
  let bPid := propertyKey (head (Side.playerIds (Match.sideB m))) in
  let gross := fun pid =>
    lookupGross (Match.singlesGrossByPlayer m) pid (Hole.hole h) in
  (HoleResult.played r = true <->
   is_Some (gross aPid) /\ is_Some (gross bPid)) /\
  (HoleResult.played r = true ->
   exists aNet bNet,
     HoleResult.details r = singles (gross aPid) (gross bPid) aNet bNet /\
     (playersById !! aPid = None -> aNet = None) /\
     (playersById !! bPid = None -> bNet = None) /\
     (playersById !! aPid = None \/ playersById !! bPid = None ->
      HoleResult.winnerSideId r = None)).

(** What is promised of the result [r] of hole [h] under missing input. *)
Definition holeDegrades (m : Match.t) (playersById : gmap string Player.t)
    (h : Hole.t) (r : HoleResult.t) : Prop :=
  HoleResult.hole r = Hole.hole h /\
  (HoleResult.played r = false ->
   HoleResult.winnerSideId r = None /\
   HoleResult.details r = unplayedDetails (Match.format m)) /\
  (Match.format m = "FOURBALL_NET" -> fourballDegrades m playersById h r) /\
  (Match.format m = "SCRAMBLE_STABLEFORD" -> scrambleDegrades m h r) /\
  (Match.format m = "SINGLES_NET" -> singlesDegrades m playersById h r).

(** The result of a hole without outcome. *)
Definition unplayedHole (m : Match.t) (h : Hole.t) : HoleResult.t :=
  {| HoleResult.hole := Hole.hole h;
     HoleResult.played := false;
     HoleResult.winnerSideId := None;
     HoleResult.details := unplayedDetails (Match.format m) |}.

(** A match all of whose raw gross entries are removed. *)
Definition cleared (m : Match.t) : Prop :=
  forall key hole,
    lookupGross (Match.fourballGrossByPlayer m) key hole = None /\
    lookupGross (Match.scrambleGrossBySide m) key hole = None /\
    lookupGross (Match.singlesGrossByPlayer m) key hole = None.

(** The status before any score is entered, per tracker. *)
Definition notStarted : Status.t :=
  {| Status.tally := holesTally 0 0;
     Status.played := 0;
     Status.isFinal := false;
     Status.text := "Not Started";
     Status.leaderSideId := None;
     Status.isTied := true |}.

Definition noTotals : Status.t :=
  {| Status.tally := pointsTally 0 0;
     Status.played := 0;
     Status.isFinal := false;
     Status.text := "—";
     Status.leaderSideId := None;
     Status.isTied := true |}.


(** ** Further functions of the two source files *)

(** [clamp(n, lo, hi) = Math.max(lo, Math.min(hi, n))] (both files). *)
Definition clamp (n lo hi : Z) : Z := Z.max lo (Z.min hi n).

(** The two buttons of [NumberStepper]: the value handed to [onChange],
    [value == null ? min : clamp(value -/+ 1, min, max)]. *)
Definition stepDown (value : option Z) (min max : Z) : Z :=
  match value with
  | None => min
  | Some v => clamp (v - 1) min max
  end.

Definition stepUp (value : option Z) (min max : Z) : Z :=
  match value with
  | None => min
  | Some v => clamp (v + 1) min max
  end.

(** [COURSES[1].holes] and [COURSES[3].holes]. *)
Definition COURSES_1_holes : list Hole.t :=
  holesFromParAndHcp
    [4; 4; 5; 4; 3; 4; 4; 3; 5; 4; 5; 4; 3; 5; 3; 4; 4; 4]
    [12; 8; 2; 16; 18; 10; 4; 14; 6; 11; 5; 9; 17; 1; 13; 15; 3; 7].

Definition COURSES_3_holes : list Hole.t :=
  holesFromParAndHcp
    [5; 4; 4; 3; 4; 4; 4; 3; 5; 5; 3; 4; 4; 4; 5; 4; 3; 4]
    [15; 13; 1; 9; 7; 5; 3; 11; 17; 18; 14; 16; 6; 10; 12; 2; 8; 4].

(** The body shared by [setFourballGross], [setSinglesGross] and
    [setScrambleGross] of [MatchPage]: the object [next] that is written,
    [next = { ...(store || {}) }; per = { ...(next[key] || {}) };
     gross == null ? delete per[holeNum] : per[holeNum] = gross;
     next[key] = per]. *)
Definition setGrossIn (store : GrossStore) (key : string) (holeNum : Z)
    (gross : option Z) : gmap string (gmap Z Z) :=
  let next := default ∅ store in
  let per := default ∅ (next !! key) in
  let per :=
    match gross with
    | None => delete holeNum per
    | Some g => <[holeNum := g]> per
    end in
  <[key := per]> next.

(** The match document once the patch [{ field: next }] of the setter is
    written by [writeMatch]. *)
Definition setFourballGross (m : Match.t) (pid : string) (holeNum : Z)
    (gross : option Z) : Match.t :=
  {| Match.format := Match.format m;
     Match.sideA := Match.sideA m;
     Match.sideB := Match.sideB m;
     Match.fourballGrossByPlayer :=
       Some (setGrossIn (Match.fourballGrossByPlayer m) pid holeNum gross);
     Match.scrambleGrossBySide := Match.scrambleGrossBySide m;
     Match.singlesGrossByPlayer := Match.singlesGrossByPlayer m |}.

Definition setSinglesGross (m : Match.t) (pid : string) (holeNum : Z)
    (gross : option Z) : Match.t :=
  {| Match.format := Match.format m;
     Match.sideA := Match.sideA m;
     Match.sideB := Match.sideB m;
     Match.fourballGrossByPlayer := Match.fourballGrossByPlayer m;
     Match.scrambleGrossBySide := Match.scrambleGrossBySide m;
     Match.singlesGrossByPlayer :=
       Some (setGrossIn (Match.singlesGrossByPlayer m) pid holeNum gross) |}.

Definition setScrambleGross (m : Match.t) (sideId : string) (holeNum : Z)
    (gross : option Z) : Match.t :=
  {| Match.format := Match.format m;
     Match.sideA := Match.sideA m;
     Match.sideB := Match.sideB m;
     Match.fourballGrossByPlayer := Match.fourballGrossByPlayer m;
     Match.scrambleGrossBySide :=
       Some (setGrossIn (Match.scrambleGrossBySide m) sideId holeNum gross);
     Match.singlesGrossByPlayer := Match.singlesGrossByPlayer m |}.

(** [statusPillTone(status, match)]. *)
Definition statusPillTone (status : Status.t) (m : Match.t) : string :=
  if Status.isFinal status then
    (if includes (Status.text status) "Tied" then "warn" else "final")
  else if Status.isTied status then "neutral"
  else
    let leaderTeam :=
      if bool_decide (Status.leaderSideId status = Some (Side.id (Match.sideA m)))
      then Side.teamId (Match.sideA m) else Side.teamId (Match.sideB m) in
    if String.eqb leaderTeam "JC" then "jcLead" else "sgLead".

(** The strokes a player receives over the holes of a course. *)
Definition roundStrokes (courseHcp : Z) (holes : list Hole.t) : Z :=
  foldr Z.add 0
    (map (fun h => strokesReceivedOnHole courseHcp (Hole.hcpRank h)) holes).

(** ** Tournament aggregator: [computeTournamentTotals] *)

Module Course.
Record t := mk { name : string; holes : list Hole.t }.
End Course.

Module Day.
Record t := mk {
  day : Z;
  title : string;
  courseName : string;
  matches : list Match.t }.
End Day.

Module Tournament.
Record t := mk {
  players : list Player.t;
  days : list Day.t;
  courses : gmap Z Course.t }.
End Tournament.

(** The objects returned for a match, a day and the tournament. *)
Module MatchCard.
Record t := mk {
  theMatch : Match.t;
  holes : list HoleResult.t;
  status : Status.t;
  points : gmap string Q;
  courseName : string }.
End MatchCard.

Module DaySummary.
Record t := mk {
  day : Z;
  title : string;
  courseName : string;
  jc : Q;
  sg : Q;
  matchCards : list MatchCard.t }.
End DaySummary.

Module Totals.
Record t := mk {
  daySummaries : list DaySummary.t;
  totalJC : Q;
  totalSG : Q }.
End Totals.

(** [tournament.courses?.[d.day]?.holes || []]. *)
Definition courseHoles (t : Tournament.t) (d : Day.t) : list Hole.t :=
  default [] (Course.holes <$> Tournament.courses t !! Day.day d).

(** [tournament.courses?.[d.day]?.name || d.courseName]: an empty name is
    falsy. *)
Definition cardCourseName (t : Tournament.t) (d : Day.t) : string :=
  match Course.name <$> Tournament.courses t !! Day.day d with
  | Some n => if String.eqb n "" then Day.courseName d else n
  | None => Day.courseName d
  end.

(** The callback of [(d.matches || []).map], without its updates of [jc]
    and [sg]. *)
Definition matchCardOf (t : Tournament.t) (d : Day.t) (holes : list Hole.t)
    (playersById : gmap string Player.t) (m : Match.t) : option MatchCard.t :=
  mh ← computeMatchHoles m holes playersById;
  let status := statusOf m mh in
  let pts := pointsForFinalMatch status (Match.sideA m) (Match.sideB m) in
  Some {| MatchCard.theMatch := m;
          MatchCard.holes := mh;
          MatchCard.status := status;
          MatchCard.points := pts;
          MatchCard.courseName := cardCourseName t d |}.

(** The map over the day's matches, threading [(jc, sg)]. *)
Fixpoint dayLoop (card : Match.t -> option MatchCard.t)
    (matches : list Match.t) (acc : Q * Q)
    : option (Q * Q * list MatchCard.t) :=
  match matches with
  | [] => Some (acc, [])
  | m :: ms =>
      c ← card m;
      r ← dayLoop card ms (addPoints acc (MatchCard.points c));
      Some (r.1, c :: r.2)
  end.

Definition daySummaryOf (t : Tournament.t)
    (playersById : gmap string Player.t) (d : Day.t) : option DaySummary.t :=
  let holes := courseHoles t d in
  r ← dayLoop (matchCardOf t d holes playersById) (Day.matches d) (0%Q, 0%Q);
  Some {| DaySummary.day := Day.day d;
          DaySummary.title := Day.title d;
          DaySummary.courseName := Day.courseName d;
          DaySummary.jc := r.1.1;
          DaySummary.sg := r.1.2;
          DaySummary.matchCards := r.2 |}.

Definition computeTournamentTotals (t : Tournament.t) : option Totals.t :=
  let playersById := playersByIdOf (Tournament.players t) in
  daySummaries ← mapM (daySummaryOf t playersById) (Tournament.days t);
  let totalJC := fold_left (fun s d => (s + DaySummary.jc d)%Q) daySummaries 0%Q in
  let totalSG := fold_left (fun s d => (s + DaySummary.sg d)%Q) daySummaries 0%Q in
  Some {| Totals.daySummaries := daySummaries;
          Totals.totalJC := totalJC;
          Totals.totalSG := totalSG |}.

(** The "Current Lead" of [HomePage], [totalJC === totalSG ? "Tied" :
    totalJC > totalSG ? TEAM_ABBR.JC : TEAM_ABBR.SG]. *)
Definition leaderLabel (totals : Totals.t) : string :=
  if Qeq_bool (Totals.totalJC totals) (Totals.totalSG totals) then "Tied"
  else if negb (Qle_bool (Totals.totalJC totals) (Totals.totalSG totals))
  then "JCGC" else "SGC".

(** A match between a side of team JC and a side of team SG. *)
Definition jcAgainstSg (m : Match.t) : Prop :=
  (Side.teamId (Match.sideA m) = "JC" /\ Side.teamId (Match.sideB m) = "SG") \/
  (Side.teamId (Match.sideA m) = "SG" /\ Side.teamId (Match.sideB m) = "JC").

(** The number of final matches among cards, and over all days. *)
Definition finalMatches (cards : list MatchCard.t) : Z :=
  Z.of_nat (length (filter (fun c => Status.isFinal (MatchCard.status c) = true) cards)).

Definition finalMatchesOverall (days : list DaySummary.t) : Z :=
  foldr Z.add 0 (map (fun d => finalMatches (DaySummary.matchCards d)) days).

(** What a card owes to its match. *)
Definition cardOf (holes : list Hole.t) (playersById : gmap string Player.t)
    (m : Match.t) (c : MatchCard.t) : Prop :=
  MatchCard.theMatch c = m /\
  computeMatchHoles m holes playersById = Some (MatchCard.holes c) /\
  MatchCard.status c = statusOf m (MatchCard.holes c) /\
  MatchCard.points c
  = pointsForFinalMatch (MatchCard.status c) (Match.sideA m) (Match.sideB m).

(** What a day summary owes to its day: one card per match, in order, and
    the day's points. *)
Definition summaryOf (t : Tournament.t) (playersById : gmap string Player.t)
    (d : Day.t) (s : DaySummary.t) : Prop :=
  DaySummary.day s = Day.day d /\
  Forall2 (cardOf (courseHoles t d) playersById)
          (Day.matches d) (DaySummary.matchCards s) /\
  (0 <= DaySummary.jc s)%Q /\ (0 <= DaySummary.sg s)%Q /\
  (Forall jcAgainstSg (Day.matches d) ->
   (DaySummary.jc s + DaySummary.sg s
      == inject_Z (finalMatches (DaySummary.matchCards s)))%Q) /\
  (Forall (fun c => Status.isFinal (MatchCard.status c) = false)
          (DaySummary.matchCards s) ->
   (DaySummary.jc s == 0)%Q /\ (DaySummary.sg s == 0)%Q).

(** ** [makeInitialTournament] *)

(** [SAMPLE_ROSTER_SLOTS], team and course handicap of each slot. *)
Definition SAMPLE_ROSTER_SLOTS : list (string * Z) :=
  [ ("JC", 13); ("JC", 8); ("JC", 12); ("JC", 4); ("JC", 14);
    ("JC", 17); ("JC", 20); ("JC", 22); ("JC", 22); ("JC", 28);
    ("SG", 23); ("SG", 3); ("SG", 6); ("SG", 12); ("SG", 14);
    ("SG", 15); ("SG", 20); ("SG", 21); ("SG", 28); ("SG", 17) ].

(** [COURSES], names and holes. *)
Definition COURSES : gmap Z Course.t :=
  <[3 := Course.mk "Papago Golf Club" COURSES_3_holes]>
  (<[2 := Course.mk "Lookout Mountain Golf Club" COURSES_2_holes]>
   {[ 1 := Course.mk "Wildfire Golf Club (Fazio Course)" COURSES_1_holes ]}).

(** The callbacks of the three [Array.from({ length: n }, (_, i) => ...)];
    [None] when a [players[...]] read is out of range, where [p.id] throws. *)
Definition day1Match (players : list Player.t) (i : nat) : option Match.t :=
  let matchNo := Z.of_nat i + 1 in
  a1 ← players !! (i * 2)%nat; a2 ← players !! (i * 2 + 1)%nat;
  b1 ← players !! (10 + i * 2)%nat; b2 ← players !! (10 + i * 2 + 1)%nat;
  Some {| Match.format := "FOURBALL_NET";
          Match.sideA := Side.mk ("d1m" +:+ pretty matchNo +:+ "-A") "JC"
                                 [Player.id a1; Player.id a2];
          Match.sideB := Side.mk ("d1m" +:+ pretty matchNo +:+ "-B") "SG"
                                 [Player.id b1; Player.id b2];
          Match.fourballGrossByPlayer := Some ∅;
          Match.scrambleGrossBySide := None;
          Match.singlesGrossByPlayer := None |}.

Definition day2Match (players : list Player.t) (i : nat) : option Match.t :=
  let matchNo := Z.of_nat i + 1 in
  a1 ← players !! (i * 2)%nat; a2 ← players !! (i * 2 + 1)%nat;
  b1 ← players !! (10 + i * 2)%nat; b2 ← players !! (10 + i * 2 + 1)%nat;
  Some {| Match.format := "SCRAMBLE_STABLEFORD";
          Match.sideA := Side.mk ("d2m" +:+ pretty matchNo +:+ "-A") "JC"
                                 [Player.id a1; Player.id a2];
          Match.sideB := Side.mk ("d2m" +:+ pretty matchNo +:+ "-B") "SG"
                                 [Player.id b1; Player.id b2];
          Match.fourballGrossByPlayer := None;
          Match.scrambleGrossBySide := Some ∅;
          Match.singlesGrossByPlayer := None |}.

Definition day3Match (players : list Player.t) (i : nat) : option Match.t :=
  let matchNo := Z.of_nat i + 1 in
  a ← players !! i; b ← players !! (10 + i)%nat;
  Some {| Match.format := "SINGLES_NET";
          Match.sideA := Side.mk ("d3m" +:+ pretty matchNo +:+ "-A") "JC"
                                 [Player.id a];
          Match.sideB := Side.mk ("d3m" +:+ pretty matchNo +:+ "-B") "SG"
                                 [Player.id b];
          Match.fourballGrossByPlayer := None;
          Match.scrambleGrossBySide := None;
          Match.singlesGrossByPlayer := Some ∅ |}.

Definition makeInitialTournament : option Tournament.t :=
  let players :=
    imap (fun idx s => Player.mk ("p" +:+ pretty (Z.of_nat idx + 1)) s.1 s.2)
         SAMPLE_ROSTER_SLOTS in
  day1 ← mapM (day1Match players) (seq 0 5);
  day2 ← mapM (day2Match players) (seq 0 5);
  day3 ← mapM (day3Match players) (seq 0 10);
  Some {| Tournament.players := players;
          Tournament.days :=
            [ Day.mk 1 "Day 1 — 2v2 Fourball (Net Match Play)"
                     "Wildfire Golf Club (Fazio Course)" day1;
              Day.mk 2 "Day 2 — 2v2 Scramble (Stableford Match Play)"
                     "Lookout Mountain Golf Club" day2;
              Day.mk 3 "Day 3 — Singles (Net Match Play)"
                     "Papago Golf Club" day3 ];
          Tournament.courses := COURSES |}.

(** Whether a character occurs in a string. *)
Fixpoint hasChar (c : Ascii.ascii) (s : string) : bool :=
  match s with
  | EmptyString => false
  | String a s' => Ascii.eqb a c || hasChar c s'
  end.

(** The letter T. *)
Definition charT : Ascii.ascii := Ascii.ascii_of_nat 84.

(** A status with the two tallies exchanged, everything else kept. *)
Definition swapTally (st : Status.t) : Status.t :=
  {| Status.tally :=
       match Status.tally st with
       | holesTally a b => holesTally b a
       | pointsTally a b => pointsTally b a
       end;
     Status.played := Status.played st;
     Status.isFinal := Status.isFinal st;
     Status.text := Status.text st;
     Status.leaderSideId := Status.leaderSideId st;
     Status.isTied := Status.isTied st |}.

(** ** Who may edit, claims and admins *)

(** Truthiness of a string-or-null: [null] and the empty string are falsy. *)
Definition truthy (s : option string) : bool :=
  match s with
  | Some s => negb (String.eqb s "")
  | None => false
  end.

(** [claimedPlayerId ? playersById[claimedPlayerId] : null]. *)
Definition meOf (claimedPlayerId : option string)
    (playersById : gmap string Player.t) : option Player.t :=
  match claimedPlayerId with
  | Some pid => if String.eqb pid "" then None else playersById !! pid
  | None => None
  end.

(** [!!me && (sideA.playerIds.includes(me.id) || sideB.playerIds.includes(me.id))]. *)
Definition isParticipant (me : option Player.t) (m : Match.t) : bool :=
  match me with
  | None => false
  | Some me =>
      bool_decide (Player.id me ∈ Side.playerIds (Match.sideA m)) ||
      bool_decide (Player.id me ∈ Side.playerIds (Match.sideB m))
  end.

(** [canEditPlayer(pid)] and [canEditSide(sideId)] of [MatchPage]. *)
Definition canEditPlayer (isAdmin : bool) (me : option Player.t) (m : Match.t)
    (playersById : gmap string Player.t) (pid : string) : bool :=
  if isAdmin then true
  else
    match me with
    | None => false
    | Some me' =>
        if negb (isParticipant me m) then false
        else if String.eqb (Match.format m) "SINGLES_NET"
        then String.eqb pid (Player.id me')
        else
          match playersById !! pid with
          | None => false
          | Some p =>
              String.eqb (Player.teamId p) (Player.teamId me') &&
              (bool_decide (pid ∈ Side.playerIds (Match.sideA m)) ||
               bool_decide (pid ∈ Side.playerIds (Match.sideB m)))
          end
    end.

Definition canEditSide (isAdmin : bool) (me : option Player.t) (m : Match.t)
    (sideId : string) : bool :=
  if isAdmin then true
  else
    match me with
    | None => false
    | Some me' =>
        if negb (isParticipant me m) then false
        else if negb (String.eqb (Match.format m) "SCRAMBLE_STABLEFORD") then false
        else
          let side := if String.eqb sideId (Side.id (Match.sideA m))
                      then Match.sideA m else Match.sideB m in
          String.eqb (Side.teamId side) (Player.teamId me')
    end.

(** The claims object written by [setClaimForUser(uid, playerId)]; [None]
    when [uid] is falsy and nothing is written. The entries whose value is
    [playerId] are deleted, then [uid] is set. *)
Definition setClaimForUser (claims : gmap string string) (uid : option string)
    (playerId : string) : option (gmap string string) :=
  if negb (truthy uid) then None
  else
    let nextClaims := filter (fun kv => kv.2 <> playerId) claims in
    Some (<[default "" uid := playerId]> nextClaims).

(** The claims object written by [clearMyClaim(uid)]. *)
Definition clearMyClaim (claims : gmap string string) (uid : option string)
    : option (gmap string string) :=
  if negb (truthy uid) then None
  else Some (delete (default "" uid) claims).

(** [userId ? tournament.claims?.[userId] || null : null]. *)
Definition claimedPlayerIdOf (claims : gmap string string)
    (userId : option string) : option string :=
  if truthy userId then
    match claims !! default "" userId with
    | Some pid => if String.eqb pid "" then None else Some pid
    | None => None
    end
  else None.

(** A [Set] of strings as the list of its elements in insertion order. *)
Definition setAdd (x : string) (s : list string) : list string :=
  if bool_decide (x ∈ s) then s else s ++ [x].

Definition newSet (l : list string) : list string :=
  fold_left (fun s x => setAdd x s) l [].

Definition setDelete (x : string) (s : list string) : list string :=
  filter (fun y => y <> x) s.

(** The [adminUserIds] written by [removeAdminUid(uidToRemove)]. *)
Definition removeAdminUid (adminUserIds : list string)
    (ownerUserId : option string) (uidToRemove : string) : list string :=
  let set := newSet adminUserIds in
  let set := setDelete uidToRemove set in
  if truthy ownerUserId then setAdd (default "" ownerUserId) set else set.

(** [!!userId && (userId === ownerUserId || adminUserIds.includes(userId))]. *)
Definition isAdmin (userId ownerUserId : option string)
    (adminUserIds : list string) : bool :=
  truthy userId &&
  (bool_decide (userId = ownerUserId) ||
   bool_decide (default "" userId ∈ adminUserIds)).

(** A claims object in which no player is claimed by two users. *)
Definition onePerPlayer (claims : gmap string string) : Prop :=
  forall u1 u2 p, claims !! u1 = Some p -> claims !! u2 = Some p -> u1 = u2.



(** ** The hole strip of a match card *)


Module Cell.
Record t := mk { bg : string; txt : string; title : string }.
End Cell.






(** ** Theorems *)

(** C4: [stablefordFromDiff] is the step function 10, 6, 3, 1, -1, -2 on
    -3 .. 2, constant [f 2] above 2 and constant [f (-3)] below -3. *)
Theorem stablefordFromDiff_step :
  stablefordFromDiff (-3) = 10 /\ stablefordFromDiff (-2) = 6 /\
  stablefordFromDiff (-1) = 3 /\ stablefordFromDiff 0 = 1 /\
  stablefordFromDiff 1 = -1 /\ stablefordFromDiff 2 = -2 /\
  (forall x, 2 < x -> stablefordFromDiff x = stablefordFromDiff 2) /\
  (forall x, x < -3 -> stablefordFromDiff x = stablefordFromDiff (-3)).
Proof.
  repeat split; try reflexivity; intros x Hx.
  all: match goal with |- _ = ?r => let v := eval vm_compute in r in change r with v end.
  all: unfold stablefordFromDiff.
  - destruct (Z.leb_spec x (-3)); [lia|].
    repeat match goal with
           | |- context [?a =? ?b] => destruct (Z.eqb_spec a b); [lia|]
           end.
    reflexivity.
  - destruct (Z.leb_spec x (-3)); [reflexivity | lia].
Qed.

(** C5: for a non-negative course handicap the strokes received are
    [floor(courseHcp/18)] plus one on the holes ranked at most
    [courseHcp mod 18]; with handicap 20 ranks 1 and 2 get two strokes and
    ranks 3..18 get one; [netScore] is [null] on an unset gross and
    [gross - strokes] otherwise. *)
Theorem strokesReceivedOnHole_netScore_spec (courseHcp holeRank : Z) :
  0 <= courseHcp ->
  strokesReceivedOnHole courseHcp holeRank
    = courseHcp / 18 + (if holeRank <=? courseHcp mod 18 then 1 else 0)
  /\ (strokesReceivedOnHole 20 1 = 2 /\ strokesReceivedOnHole 20 2 = 2 /\
      forall r, 3 <= r <= 18 -> strokesReceivedOnHole 20 r = 1)
  /\ netScore None courseHcp holeRank = None
  /\ forall gross, netScore (Some gross) courseHcp holeRank
       = Some (gross - strokesReceivedOnHole courseHcp holeRank).
Proof.
  intros Hc. repeat split; try reflexivity.
  - unfold strokesReceivedOnHole. cbv zeta.
    rewrite Z.rem_mod_nonneg by lia. reflexivity.
  - intros r Hr. unfold strokesReceivedOnHole. cbv zeta.
    change (Z.rem 20 18) with 2. change (20 / 18) with 1.
    destruct (Z.leb_spec r 2); lia.
Qed.

Lemma strokesReceivedOnHole_netScore_spec_witness :
  0 <= 20 /\
  strokesReceivedOnHole 20 1 = 20 / 18 + (if 1 <=? 20 mod 18 then 1 else 0).
Proof.
  split; [lia|].
  exact (proj1 (strokesReceivedOnHole_netScore_spec 20 1 ltac:(lia))).
Defined.


(** ** Match play status: [matchStatusFromHoles] *)

Lemma holesPlayed_cons h holes :
  holesPlayed (h :: holes)
  = (if Outcome.played h then 1 else 0) + holesPlayed holes.
Proof.
  unfold holesPlayed. rewrite filter_cons.
  destruct (Outcome.played h); case_decide; try done; cbn [length]; lia.
Qed.

Lemma holesWonBy_cons sid h holes :
  holesWonBy sid (h :: holes)
  = (if Outcome.played h && bool_decide (Outcome.winnerSideId h = Some sid)
     then 1 else 0) + holesWonBy sid holes.
Proof.
  unfold holesWonBy. rewrite filter_cons.
  destruct (Outcome.played h); case_bool_decide; case_decide;
    cbn [andb length]; try lia; exfalso; intuition congruence.
Qed.

#[local] Ltac triple_lia :=
  apply (f_equal2 pair); [apply (f_equal2 pair)|]; lia.

Lemma tally_fold sideAId sideBId holes a0 b0 p0 :
  sideAId <> sideBId ->
  fold_left (tallyStep sideAId sideBId) holes (a0, b0, p0)
  = (a0 + holesWonBy sideAId holes, b0 + holesWonBy sideBId holes,
     p0 + holesPlayed holes).
Proof.
  intros Hne. revert a0 b0 p0.
  induction holes as [|h holes IH]; intros a0 b0 p0.
  - unfold holesWonBy, holesPlayed. cbn. triple_lia.
  - cbn [fold_left]. rewrite !holesWonBy_cons, holesPlayed_cons.
    unfold tallyStep at 2. destruct (Outcome.played h); cbn [negb andb].
    + repeat case_bool_decide; try congruence; rewrite IH; triple_lia.
    + rewrite IH. triple_lia.
Qed.

Lemma tallyHoles_counts holes sideAId sideBId :
  sideAId <> sideBId ->
  tallyHoles holes sideAId sideBId
  = (holesWonBy sideAId holes, holesWonBy sideBId holes, holesPlayed holes).
Proof. intros Hne. unfold tallyHoles. by rewrite tally_fold. Qed.

Lemma tally_bounds holes sideAId sideBId :
  sideAId <> sideBId ->
  0 <= holesWonBy sideAId holes /\ 0 <= holesWonBy sideBId holes /\
  holesWonBy sideAId holes + holesWonBy sideBId holes <= holesPlayed holes /\
  holesPlayed holes <= Z.of_nat (length holes).
Proof.
  intros Hne. induction holes as [|h holes IH].
  - unfold holesWonBy, holesPlayed. cbn. lia.
  - rewrite !holesWonBy_cons, holesPlayed_cons. cbn [length].
    destruct (Outcome.played h); cbn [andb];
      repeat case_bool_decide; try congruence; lia.
Qed.

Lemma tally_replicate_wonBy sideAId sideBId n a b p :
  fold_left (tallyStep sideAId sideBId) (replicate n (wonBy sideAId)) (a, b, p)
  = (a + Z.of_nat n, b, p + Z.of_nat n).
Proof.
  revert a p. induction n as [|n IH]; intros a p.
  - cbn. triple_lia.
  - cbn [replicate fold_left]. unfold tallyStep at 2, wonBy at 2.
    cbn [Outcome.played Outcome.winnerSideId negb].
    rewrite bool_decide_eq_true_2 by reflexivity. rewrite IH. triple_lia.
Qed.

Lemma tally_replicate_notPlayed sideAId sideBId n acc :
  fold_left (tallyStep sideAId sideBId) (replicate n notPlayed) acc = acc.
Proof.
  induction n as [|n IH]; [reflexivity|].
  cbn [replicate fold_left]. unfold tallyStep at 2, notPlayed at 2.
  destruct acc as [[a b] p]. cbn [Outcome.played negb]. exact IH.
Qed.

(** C2: on 18 hole outcomes with at least one played, the status is final
    with label "Final {abs diff}&{remaining}" and the side with more holes
    as leader exactly when [abs diff > remaining]; the dormie boundary
    [abs diff = remaining] with holes left is not final. When side A wins
    holes 1-10 and nothing else has an outcome the status is final,
    "Final 10&8", leader A. *)
Theorem closeout_exactly_when_lead_exceeds_remaining
    (holes : list Outcome.t) (sideAId sideBId : string) :
  (length holes = 18%nat ->
   sideAId <> sideBId ->
   0 < holesPlayed holes ->
   let a := holesWonBy sideAId holes in
   let b := holesWonBy sideBId holes in
   let played := holesPlayed holes in
   let diff := a - b in
   let remaining := 18 - played in
   let st := matchStatusFromHoles holes sideAId sideBId in
   ((Status.isFinal st = true /\
     Status.text st
       = "Final " +:+ pretty (Z.abs diff) +:+ "&" +:+ pretty remaining /\
     Status.leaderSideId st = Some (sideAhead a b sideAId sideBId))
    <-> Z.abs diff > remaining) /\
   (Z.abs diff > remaining -> a <> b) /\
   (Z.abs diff = remaining -> played < 18 -> Status.isFinal st = false)) /\
  (let st := matchStatusFromHoles
               (replicate 10 (wonBy sideAId) ++ replicate 8 notPlayed)
               sideAId sideBId in
   Status.isFinal st = true /\ Status.text st = "Final 10&8" /\
   Status.leaderSideId st = Some sideAId /\ Status.played st = 10 /\
   Status.tally st = holesTally 10 0).
Proof.
  split.
  - intros Hlen Hne Hpl a b played diff remaining st.
    destruct (tally_bounds holes sideAId sideBId Hne) as (Ha & Hb & Hab & Hp).
    fold a b played in Ha, Hb, Hab, Hp, Hpl. rewrite Hlen in Hp.
    subst st. unfold matchStatusFromHoles.
    rewrite tallyHoles_counts by done. fold a b played. cbv beta iota zeta.
    fold diff remaining.
    destruct (Z.ltb_spec remaining (Z.abs diff)) as [Hc|Hc];
      destruct (Z.ltb_spec 0 played) as [_|?]; try lia; cbn [andb].
    + assert (diff <> 0) by lia.
      cbn [Status.isFinal Status.text Status.leaderSideId].
      split; [split; [intros _; lia|intros _]|split; [lia|lia]].
      unfold sideAhead.
      destruct (Z.ltb_spec 0 diff), (Z.ltb_spec diff 0), (Z.ltb_spec b a);
        try lia; done.
    + split; [|split; [lia|]].
      * split; [|lia]. intros (Hf & Ht & _). revert Hf Ht.
        destruct (Z.eqb_spec played 0); [lia|].
        destruct (Z.eqb_spec played 18) as [Hp18|]; [|by destruct (diff =? 0)].
        destruct (Z.eqb_spec diff 0) as [Hd|]; [|lia].
        cbn [Status.isFinal Status.text]. intros _.
        replace remaining with 0 by lia. rewrite Hd. done.
      * intros _ Hlt.
        destruct (Z.eqb_spec played 0); [lia|].
        destruct (Z.eqb_spec played 18); [lia|].
        by destruct (diff =? 0).
  - unfold matchStatusFromHoles, tallyHoles.
    rewrite fold_left_app, tally_replicate_wonBy, tally_replicate_notPlayed.
    vm_compute. done.
Qed.

Lemma closeout_exactly_when_lead_exceeds_remaining_witness :
  let holes := (replicate 12 (wonBy "d1m1-A") ++ replicate 6 notPlayed)%list in
  length holes = 18%nat /\ "d1m1-A" <> "d1m1-B" /\ 0 < holesPlayed holes /\
  Status.isFinal (matchStatusFromHoles holes "d1m1-A" "d1m1-B") = true.
Proof.
  intros holes.
  assert (Hlen : length holes = 18%nat) by reflexivity.
  assert (Hne : "d1m1-A" <> "d1m1-B") by discriminate.
  assert (Hpl : 0 < holesPlayed holes) by (vm_compute; reflexivity).
  split; [exact Hlen|]. split; [exact Hne|]. split; [exact Hpl|].
  destruct (closeout_exactly_when_lead_exceeds_remaining
              holes "d1m1-A" "d1m1-B") as [Hgen _].
  destruct (Hgen Hlen Hne Hpl) as [[_ Hfin] _].
  apply Hfin. vm_compute. reflexivity.
Defined.

(** With all 18 holes played [remaining] is 0, so any difference in holes
    won already satisfies the closeout test, which is evaluated first: a
    decided full round is labelled "Final {abs diff}&0". *)
Lemma full_round_decided_closes_out
    (holes : list Outcome.t) (sideAId sideBId : string) :
  sideAId <> sideBId ->
  holesPlayed holes = 18 ->
  holesWonBy sideAId holes <> holesWonBy sideBId holes ->
  let diff := holesWonBy sideAId holes - holesWonBy sideBId holes in
  let st := matchStatusFromHoles holes sideAId sideBId in
  Status.isFinal st = true /\
  Status.text st = "Final " +:+ pretty (Z.abs diff) +:+ "&0" /\
  Status.isTied st = false.
Proof.
  intros Hne Hpl Hab diff st. subst st. unfold matchStatusFromHoles.
  rewrite tallyHoles_counts by done. rewrite Hpl. cbv beta iota zeta.
  fold diff. change (18 - 18) with 0.
  destruct (Z.ltb_spec 0 (Z.abs diff)); [|lia].
  cbn [andb Z.ltb Z.compare Status.isFinal Status.text Status.isTied].
  destruct (Z.ltb_spec 0 diff), (Z.ltb_spec diff 0); try lia; done.
Qed.



(** ** Fourball-Net hole engine *)

Lemma playerNet_netOf gross playersById h pid :
  playerNet (playersById !! pid) (gross pid) h = netOf gross playersById h pid.
Proof.
  unfold playerNet, netOf, netScore.
  destruct (playersById !! pid), (gross pid); reflexivity.
Qed.

(** The entries that survive the filter, whatever the players map holds:
    those of players with a gross entry and a player record. *)
Lemma elem_of_sideNets gross playersById h ids x :
  x ∈ sideNets gross playersById h ids <->
  exists pid g n, pid ∈ ids /\ gross pid = Some g /\
                  netOf gross playersById h pid = Some n /\
                  x = NetEntry.mk pid (Some g) (Some n).
Proof.
  unfold sideNets. rewrite list_elem_of_filter, list_elem_of_In, in_map_iff.
  cbv zeta. setoid_rewrite playerNet_netOf. setoid_rewrite <- list_elem_of_In.
  split.
  - intros [[[g Hg] [n Hn]] (pid & <- & Hin)]. cbn in Hg, Hn.
    exists pid, g, n. by rewrite Hg, Hn.
  - intros (pid & g & n & Hin & Hg & Hn & ->). cbn. split; [by eauto|].
    exists pid. by rewrite Hg, Hn.
Qed.


Lemma bestStep_fold nets b :
  exists e, fold_left bestStep nets (Some b) = Some e /\ e ∈ b :: nets /\
            forall x, x ∈ b :: nets ->
                      toNumber (NetEntry.net e) <= toNumber (NetEntry.net x).
Proof.
  revert b. induction nets as [|cur nets IH]; intros b.
  - exists b. cbn. split; [done|]. split; [set_solver|].
    intros x Hx. apply list_elem_of_singleton in Hx. subst. lia.
  - cbn [fold_left bestStep]. unfold jsLt.
    destruct (Z.ltb_spec (toNumber (NetEntry.net cur)) (toNumber (NetEntry.net b))).
    + destruct (IH cur) as (e & He & Hin & Hmin). exists e.
      split; [done|]. split; [set_solver|].
      intros x Hx. apply elem_of_cons in Hx as [->|Hx]; [|by apply Hmin].
      specialize (Hmin cur ltac:(set_solver)). lia.
    + destruct (IH b) as (e & He & Hin & Hmin). exists e.
      split; [done|]. split; [set_solver|].
      intros x Hx. apply elem_of_cons in Hx as [->|Hx]; [apply Hmin; set_solver|].
      apply elem_of_cons in Hx as [->|Hx]; [|apply Hmin; set_solver].
      specialize (Hmin b ltac:(set_solver)). lia.
Qed.

(** [reduce] over a non-empty array yields its first entry of least net. *)
Lemma bestOf_spec nets :
  nets <> [] ->
  exists e, bestOf nets = Some e /\ e ∈ nets /\
            forall x, x ∈ nets ->
                      toNumber (NetEntry.net e) <= toNumber (NetEntry.net x).
Proof.
  destruct nets as [|b nets]; [done|]. intros _. apply bestStep_fold.
Qed.






(** The opening hole evaluated: best nets 4 (p1, one stroke) against 5 (p11,
    one stroke), side A wins. *)
Example fourballOpening_hole1 :
  computeHole fourballOpening samplePlayersById course1Hole1
  = Some {| HoleResult.hole := 1;
            HoleResult.played := true;
            HoleResult.winnerSideId := Some "d1m1-A";
            HoleResult.details :=
              fourball (Some (NetEntry.mk "p1" (Some 5) (Some 4)))
                       (Some (NetEntry.mk "p11" (Some 6) (Some 5))) |}.
Proof. vm_compute. reflexivity. Qed.

(** ** Scramble-Stableford: hole engine and totals tracker *)

Lemma mapM_total {A B} (f : A -> B) (l : list A) :
  mapM (fun x => Some (f x)) l = Some (map f l).
Proof. induction l as [|x l IH]; [done|]. cbn. by rewrite IH. Qed.

Lemma computeMatchHoles_scramble m holes playersById :
  Match.format m = "SCRAMBLE_STABLEFORD" ->
  computeMatchHoles m holes playersById = Some (map (scrambleHole m) holes).
Proof.
  intros Hfmt. unfold computeMatchHoles, computeHole. rewrite Hfmt.
  apply mapM_total.
Qed.

Lemma scramblePlayedHoles_cons m h holes :
  scramblePlayedHoles m (h :: holes)
  = match sideGross m (Side.id (Match.sideA m)) h,
          sideGross m (Side.id (Match.sideB m)) h with
    | Some _, Some _ => h :: scramblePlayedHoles m holes
    | _, _ => scramblePlayedHoles m holes
    end.
Proof.
  unfold scramblePlayedHoles. rewrite filter_cons. unfold scramblePlayed at 1.
  case_decide as Hd.
  - destruct Hd as [[ag ->] [bg ->]]. reflexivity.
  - destruct (sideGross m (Side.id (Match.sideA m)) h),
             (sideGross m (Side.id (Match.sideB m)) h); try reflexivity.
    exfalso. apply Hd. split; eauto.
Qed.

Lemma scrambleHole_played m h ag bg :
  sideGross m (Side.id (Match.sideA m)) h = Some ag ->
  sideGross m (Side.id (Match.sideB m)) h = Some bg ->
  scrambleHole m h
  = let aPts := stablefordFromDiff (ag - Hole.par h) in
    let bPts := stablefordFromDiff (bg - Hole.par h) in
    {| HoleResult.hole := Hole.hole h;
       HoleResult.played := true;
       HoleResult.winnerSideId :=
         if bPts <? aPts then Some (Side.id (Match.sideA m))
         else if aPts <? bPts then Some (Side.id (Match.sideB m))
         else None;
       HoleResult.details := scramble (Some ag) (Some bg) (Some aPts) (Some bPts) |}.
Proof.
  unfold sideGross, scrambleHole. cbv zeta. by intros -> ->.
Qed.

Lemma scrambleHole_notPlayed m h :
  sideGross m (Side.id (Match.sideA m)) h = None \/
  sideGross m (Side.id (Match.sideB m)) h = None ->
  scrambleHole m h
  = {| HoleResult.hole := Hole.hole h;
       HoleResult.played := false;
       HoleResult.winnerSideId := None;
       HoleResult.details := scramble None None None None |}.
Proof.
  unfold sideGross, scrambleHole. cbv zeta. intros [-> | ->]; [done|].
  by destruct (lookupGross _ _ _).
Qed.

Lemma totals_fold m holes a0 b0 p0 :
  fold_left totalsStep (map (scrambleHole m) holes) (a0, b0, p0)
  = (a0 + cumulativePoints m (Side.id (Match.sideA m)) holes,
     b0 + cumulativePoints m (Side.id (Match.sideB m)) holes,
     p0 + Z.of_nat (length (scramblePlayedHoles m holes))).
Proof.
  revert a0 b0 p0. induction holes as [|h holes IH]; intros a0 b0 p0.
  - cbn. triple_lia.
  - cbn [map fold_left]. unfold cumulativePoints in *.
    rewrite scramblePlayedHoles_cons.
    destruct (sideGross m (Side.id (Match.sideA m)) h) as [ag|] eqn:Ea;
      [destruct (sideGross m (Side.id (Match.sideB m)) h) as [bg|] eqn:Eb|].
    + rewrite (scrambleHole_played m h ag bg Ea Eb). cbv zeta.
      unfold totalsStep at 2.
      cbn [HoleResult.played HoleResult.details negb]. rewrite IH.
      cbn [map foldr length].
      replace (sidePointsOn m (Side.id (Match.sideA m)) h)
        with (stablefordFromDiff (ag - Hole.par h))
        by (unfold sidePointsOn; by rewrite Ea).
      replace (sidePointsOn m (Side.id (Match.sideB m)) h)
        with (stablefordFromDiff (bg - Hole.par h))
        by (unfold sidePointsOn; by rewrite Eb).
      triple_lia.
    + rewrite scrambleHole_notPlayed by (by right).
      unfold totalsStep at 2. cbn [HoleResult.played negb]. apply IH.
    + rewrite scrambleHole_notPlayed by (by left).
      unfold totalsStep at 2. cbn [HoleResult.played negb]. apply IH.
Qed.

(** C7: the status of a Scramble-Stableford match is computed from the
    cumulative points over the holes with both gross entries: with no such
    hole it is "—", not final, tied; it is final exactly when 18 holes are
    played; the strictly higher total leads, equal totals tie with no
    leader; the label is the pair of running totals. *)
Theorem stableford_status_from_totals
    (m : Match.t) (holes : list Hole.t) (playersById : gmap string Player.t) :
  Match.format m = "SCRAMBLE_STABLEFORD" ->
  let sideAId := Side.id (Match.sideA m) in
  let sideBId := Side.id (Match.sideB m) in
  let played := Z.of_nat (length (scramblePlayedHoles m holes)) in
  let aTotal := cumulativePoints m sideAId holes in
  let bTotal := cumulativePoints m sideBId holes in
  exists mh,
    computeMatchHoles m holes playersById = Some mh /\
    let st := statusOf m mh in
    st = stablefordTotalsStatusFromHoles mh sideAId sideBId /\
    Status.played st = played /\
    (played = 0 ->
     Status.text st = "—" /\ Status.isFinal st = false /\
     Status.isTied st = true /\ Status.leaderSideId st = None) /\
    (Status.isFinal st = true <-> played = 18) /\
    (bTotal < aTotal ->
     Status.leaderSideId st = Some sideAId /\ Status.isTied st = false) /\
    (aTotal < bTotal ->
     Status.leaderSideId st = Some sideBId /\ Status.isTied st = false) /\
    (aTotal = bTotal ->
     Status.leaderSideId st = None /\ Status.isTied st = true) /\
    (0 < played ->
     Status.text st = pretty aTotal +:+ "–" +:+ pretty bTotal /\
     Status.tally st = pointsTally aTotal bTotal).
Proof.
  intros Hfmt sideAId sideBId played aTotal bTotal.
  exists (map (scrambleHole m) holes).
  split; [by apply computeMatchHoles_scramble|].
  cbv zeta. unfold statusOf. rewrite Hfmt, String.eqb_refl.
  fold sideAId sideBId. split; [reflexivity|].
  unfold stablefordTotalsStatusFromHoles, stablefordTotals.
  rewrite totals_fold. fold sideAId sideBId aTotal bTotal played.
  rewrite !Z.add_0_l. cbv beta iota zeta.
  destruct (Z.eqb_spec played 0) as [Hp0|Hp0].
  - assert (Hnil : scramblePlayedHoles m holes = []).
    { destruct (scramblePlayedHoles m holes); [done|]. subst played.
      cbn [length] in Hp0. lia. }
    assert (aTotal = 0 /\ bTotal = 0) as [Ha Hb].
    { subst aTotal bTotal. unfold cumulativePoints. by rewrite Hnil. }
    cbn [Status.played Status.text Status.isFinal Status.isTied
         Status.leaderSideId Status.tally].
    repeat split; try done; try lia.
  - cbn [Status.played Status.text Status.isFinal Status.isTied
         Status.leaderSideId Status.tally].
    split; [reflexivity|]. split; [intros; lia|].
    split; [apply Z.eqb_eq|].
    assert (0 <= played) by (subst played; lia).
    destruct (Z.ltb_spec 0 (aTotal - bTotal)),
      (Z.ltb_spec (aTotal - bTotal) 0), (Z.eqb_spec (aTotal - bTotal) 0);
      try lia; repeat split; intros; try lia; reflexivity.
Qed.

Lemma stableford_status_from_totals_witness :
  Match.format tiedScramble = "SCRAMBLE_STABLEFORD" /\
  exists mh,
    computeMatchHoles tiedScramble COURSES_2_holes samplePlayersById = Some mh /\
    Status.played (statusOf tiedScramble mh)
    = Z.of_nat (length (scramblePlayedHoles tiedScramble COURSES_2_holes)).
Proof.
  assert (Hfmt : Match.format tiedScramble = "SCRAMBLE_STABLEFORD")
    by reflexivity.
  split; [exact Hfmt|].
  destruct (stableford_status_from_totals tiedScramble COURSES_2_holes
              samplePlayersById Hfmt) as (mh & Hmh & _ & Hp & _).
  exists mh. split; [exact Hmh | exact Hp].
Defined.

(** ** Points allocator *)

#[local] Ltac points_lookup :=
  repeat first
    [ rewrite lookup_insert_eq
    | rewrite lookup_insert_ne by congruence
    | rewrite lookup_singleton_eq
    | rewrite lookup_singleton_ne by congruence ].

(** [pointsForFinalMatch] of [src/TournamentApp.jsx] on sides of distinct
    teams: 0/0 when not final, 0.5/0.5 when final and tied, otherwise 1 to
    the leader side's team and 0 to the other. *)
Lemma pointsForFinalMatch_cases (status : Status.t) (sideA sideB : Side.t) :
  Side.teamId sideA <> Side.teamId sideB ->
  let pts := pointsForFinalMatch status sideA sideB in
  let tA := Side.teamId sideA in
  let tB := Side.teamId sideB in
  (Status.isFinal status = false ->
   pts !! tA = Some 0%Q /\ pts !! tB = Some 0%Q) /\
  (Status.isFinal status = true -> Status.isTied status = true ->
   pts !! tA = Some (1#2)%Q /\ pts !! tB = Some (1#2)%Q) /\
  (Status.isFinal status = true -> Status.isTied status = false ->
   Status.leaderSideId status = Some (Side.id sideA) ->
   pts !! tA = Some 1%Q /\ pts !! tB = Some 0%Q) /\
  (Status.isFinal status = true -> Status.isTied status = false ->
   Status.leaderSideId status <> Some (Side.id sideA) ->
   pts !! tB = Some 1%Q /\ pts !! tA = Some 0%Q).
Proof.
  intros Hne pts tA tB. subst pts tA tB. unfold pointsForFinalMatch.
  repeat split; intros; cbv zeta;
    repeat match goal with H : _ = _ |- _ => rewrite H end;
    cbn [negb]; repeat case_bool_decide; try congruence; by points_lookup.
Qed.

(** The same reading for [Prototype.pointsForFinalMatch], with the label
    test [text.includes("Tied")] where the app reads [isTied]. *)
Lemma prototype_pointsForFinalMatch_cases
    (status : Status.t) (sideA sideB : Side.t) :
  Side.teamId sideA <> Side.teamId sideB ->
  let pts := Prototype.pointsForFinalMatch status sideA sideB in
  let tA := Side.teamId sideA in
  let tB := Side.teamId sideB in
  let labelTied := includes (Status.text status) "Tied" in
  (Status.isFinal status = false ->
   pts !! tA = Some 0%Q /\ pts !! tB = Some 0%Q) /\
  (Status.isFinal status = true -> labelTied = true ->
   pts !! tA = Some (1#2)%Q /\ pts !! tB = Some (1#2)%Q) /\
  (Status.isFinal status = true -> labelTied = false ->
   Status.leaderSideId status = Some (Side.id sideA) ->
   pts !! tA = Some 1%Q /\ pts !! tB = Some 0%Q) /\
  (Status.isFinal status = true -> labelTied = false ->
   Status.leaderSideId status <> Some (Side.id sideA) ->
   pts !! tB = Some 1%Q /\ pts !! tA = Some 0%Q).
Proof.
  intros Hne pts tA tB labelTied. subst pts tA tB labelTied.
  unfold Prototype.pointsForFinalMatch.
  repeat split; intros; cbv zeta;
    repeat match goal with H : _ = _ |- _ => rewrite H end;
    cbn [negb]; repeat case_bool_decide; try congruence; by points_lookup.
Qed.

(** C1: a Scramble-Stableford match in which both sides score sixteen pars
    and two bogeys is final and tied with label "14–14" and no leader. On
    that status [Prototype.pointsForFinalMatch] gives 0 to team JC and 1 to
    team SG, while [pointsForFinalMatch] of the app gives 0.5 to each. *)
Theorem prototype_points_on_tied_totals :
  exists mh,
    computeMatchHoles tiedScramble COURSES_2_holes samplePlayersById = Some mh /\
    let st := statusOf tiedScramble mh in
    let sideA := Match.sideA tiedScramble in
    let sideB := Match.sideB tiedScramble in
    Status.isFinal st = true /\ Status.isTied st = true /\
    Status.text st = "14–14" /\ Status.leaderSideId st = None /\
    Prototype.pointsForFinalMatch st sideA sideB !! "JC" = Some 0%Q /\
    Prototype.pointsForFinalMatch st sideA sideB !! "SG" = Some 1%Q /\
    pointsForFinalMatch st sideA sideB !! "JC" = Some (1#2)%Q /\
    pointsForFinalMatch st sideA sideB !! "SG" = Some (1#2)%Q.
Proof.
  eexists. split; [vm_compute; reflexivity|].
  vm_compute. repeat split; reflexivity.
Qed.

(** The tied-at-18 scenario: nine holes to each side is "Final (Tied)", and
    there both implementations split the point. *)
Example tied_at_18_points :
  let st := matchStatusFromHoles
              (replicate 9 (wonBy "d1m1-A") ++ replicate 9 (wonBy "d1m1-B"))%list
              "d1m1-A" "d1m1-B" in
  let sideA := Side.mk "d1m1-A" "JC" ["p1"; "p2"] in
  let sideB := Side.mk "d1m1-B" "SG" ["p11"; "p12"] in
  Status.isFinal st = true /\ Status.text st = "Final (Tied)" /\
  Status.isTied st = true /\ Status.leaderSideId st = None /\
  pointsForFinalMatch st sideA sideB !! "JC" = Some (1#2)%Q /\
  pointsForFinalMatch st sideA sideB !! "SG" = Some (1#2)%Q /\
  Prototype.pointsForFinalMatch st sideA sideB !! "JC" = Some (1#2)%Q /\
  Prototype.pointsForFinalMatch st sideA sideB !! "SG" = Some (1#2)%Q.
Proof. vm_compute. repeat split; reflexivity. Qed.

Lemma teamId_two_teams (t1 t2 : string) :
  t1 <> t2 -> t1 = "JC" \/ t1 = "SG" -> t2 = "JC" \/ t2 = "SG" ->
  (t1 = "JC" /\ t2 = "SG") \/ (t1 = "SG" /\ t2 = "JC").
Proof. intros Hne [-> | ->] [-> | ->]; try congruence; auto. Qed.

Lemma twoKeys_total (tA tB : string) (x y w : Q) (pts : gmap string Q) :
  tA <> tB -> twoKeys tA tB x y pts -> (x + y == w)%Q ->
  dom pts = {[ tA; tB ]} /\
  (default 0 (pts !! tA) + default 0 (pts !! tB) == w)%Q /\
  (tA = "JC" \/ tA = "SG" -> tB = "JC" \/ tB = "SG" ->
   forall jc sg : Q,
     (fst (addPoints (jc, sg) pts) + snd (addPoints (jc, sg) pts)
        == jc + sg + w)%Q).
Proof.
  intros Hne Hpts Hsum.
  assert (pts !! tA = Some x /\ pts !! tB = Some y /\ dom pts = {[ tA; tB ]})
    as (HA & HB & Hdom).
  { destruct Hpts as [-> | ->];
      (split; [by points_lookup|]); (split; [by points_lookup|]);
      rewrite dom_insert_L, dom_singleton_L; set_solver. }
  split; [exact Hdom|]. split; [by rewrite HA, HB|].
  intros HtA HtB jc sg. unfold addPoints. cbn [fst snd].
  destruct (teamId_two_teams tA tB Hne HtA HtB) as [[EA EB] | [EA EB]];
    rewrite EA in HA; rewrite EB in HB; rewrite HA, HB; cbn [default from_option]; unfold id;
    rewrite <- Hsum; ring.
Qed.

#[local] Ltac two_keys :=
  first [ do 2 eexists; split; [left; reflexivity|reflexivity]
        | do 2 eexists; split; [right; reflexivity|reflexivity] ].

Lemma pointsForFinalMatch_twoKeys (status : Status.t) (sideA sideB : Side.t) :
  Side.teamId sideA <> Side.teamId sideB ->
  exists x y,
    twoKeys (Side.teamId sideA) (Side.teamId sideB) x y
            (pointsForFinalMatch status sideA sideB) /\
    (x + y == matchWorth status)%Q.
Proof.
  intros Hne. unfold pointsForFinalMatch, matchWorth, twoKeys.
  destruct (Status.isFinal status); cbn [negb];
    [destruct (Status.isTied status)|]; cbv zeta;
    repeat case_bool_decide; try congruence; two_keys.
Qed.

Lemma prototype_pointsForFinalMatch_twoKeys
    (status : Status.t) (sideA sideB : Side.t) :
  Side.teamId sideA <> Side.teamId sideB ->
  exists x y,
    twoKeys (Side.teamId sideA) (Side.teamId sideB) x y
            (Prototype.pointsForFinalMatch status sideA sideB) /\
    (x + y == matchWorth status)%Q.
Proof.
  intros Hne. unfold Prototype.pointsForFinalMatch, matchWorth, twoKeys.
  destruct (Status.isFinal status); cbn [negb];
    [destruct (includes (Status.text status) "Tied")|]; cbv zeta;
    repeat case_bool_decide; try congruence; two_keys.
Qed.

(** C10: for sides of distinct teams and any status, the points object of
    either implementation has exactly the two team keys and its two values
    add up to 1 when the status is final and to 0 when it is not; on a final
    status without leader whose label lacks "Tied" the prototype gives the
    whole point to side B's team; and when the two teams are JC and SG the
    aggregator's totals grow by exactly that one point (or zero). *)
Theorem points_conserved (status : Status.t) (sideA sideB : Side.t) :
  Side.teamId sideA <> Side.teamId sideB ->
  let tA := Side.teamId sideA in
  let tB := Side.teamId sideB in
  let app := pointsForFinalMatch status sideA sideB in
  let proto := Prototype.pointsForFinalMatch status sideA sideB in
  (dom app = {[ tA; tB ]} /\ dom proto = {[ tA; tB ]}) /\
  (pointsTotal sideA sideB app == matchWorth status)%Q /\
  (pointsTotal sideA sideB proto == matchWorth status)%Q /\
  (Status.isFinal status = true -> Status.leaderSideId status = None ->
   includes (Status.text status) "Tied" = false ->
   proto !! tB = Some 1%Q /\ proto !! tA = Some 0%Q) /\
  ((tA = "JC" \/ tA = "SG") -> (tB = "JC" \/ tB = "SG") ->
   forall jc sg : Q,
     (fst (addPoints (jc, sg) app) + snd (addPoints (jc, sg) app)
        == jc + sg + matchWorth status)%Q /\
     (fst (addPoints (jc, sg) proto) + snd (addPoints (jc, sg) proto)
        == jc + sg + matchWorth status)%Q).
Proof.
  intros Hne tA tB app proto.
  destruct (pointsForFinalMatch_twoKeys status sideA sideB Hne)
    as (x1 & y1 & Hk1 & Hsum1).
  destruct (prototype_pointsForFinalMatch_twoKeys status sideA sideB Hne)
    as (x2 & y2 & Hk2 & Hsum2).
  destruct (twoKeys_total _ _ _ _ _ _ Hne Hk1 Hsum1) as (Hd1 & Hs1 & Ht1).
  destruct (twoKeys_total _ _ _ _ _ _ Hne Hk2 Hsum2) as (Hd2 & Hs2 & Ht2).
  split; [by split|]. split; [exact Hs1|]. split; [exact Hs2|]. split.
  - intros Hf Hl Ht.
    destruct (prototype_pointsForFinalMatch_cases status sideA sideB Hne)
      as (_ & _ & _ & Hb).
    apply Hb; [done..|]. rewrite Hl. discriminate.
  - intros HtA HtB jc sg. split; [by apply Ht1 | by apply Ht2].
Qed.

Lemma points_conserved_witness :
  let status := Status.mk (pointsTally 14 14) 18 true "14–14" None true in
  let sideA := Side.mk "d2m1-A" "JC" ["p1"; "p2"] in
  let sideB := Side.mk "d2m1-B" "SG" ["p11"; "p12"] in
  Side.teamId sideA <> Side.teamId sideB /\
  (pointsTotal sideA sideB (pointsForFinalMatch status sideA sideB) == 1)%Q /\
  (pointsTotal sideA sideB (Prototype.pointsForFinalMatch status sideA sideB) == 1)%Q.
Proof.
  intros status sideA sideB.
  assert (Hne : Side.teamId sideA <> Side.teamId sideB) by discriminate.
  split; [exact Hne|].
  destruct (points_conserved status sideA sideB Hne) as (_ & Happ & Hproto & _).
  split; [exact Happ | exact Hproto].
Defined.

(** ** Missing references and totality of [computeMatchHoles] *)

Lemma netOf_Some gross playersById h pid n :
  netOf gross playersById h pid = Some n ->
  usable gross playersById pid.
Proof.
  unfold netOf, usable.
  destruct (gross pid), (playersById !! pid); cbn; intros [=]; eauto.
Qed.

Lemma usable_netOf gross playersById h pid :
  usable gross playersById pid ->
  is_Some (netOf gross playersById h pid).
Proof. unfold netOf. intros [[g ->] [p ->]]. cbn. eauto. Qed.

Lemma sideNets_usable gross playersById h ids x :
  x ∈ sideNets gross playersById h ids ->
  NetEntry.pid x ∈ ids /\ usable gross playersById (NetEntry.pid x).
Proof.
  intros (pid & g & n & Hin & Hg & Hn & ->)%elem_of_sideNets.
  split; [exact Hin|]. by eapply netOf_Some.
Qed.

Lemma sideNets_nonempty gross playersById h ids :
  sideNets gross playersById h ids <> [] <->
  exists pid, pid ∈ ids /\ usable gross playersById pid.
Proof.
  split.
  - destruct (sideNets gross playersById h ids) as [|x l] eqn:E; [done|].
    intros _. exists (NetEntry.pid x).
    apply (sideNets_usable gross playersById h). rewrite E. by left.
  - intros (pid & Hin & Hu) Hnil.
    destruct (usable_netOf gross playersById h pid Hu) as [n Hn].
    destruct Hu as [[g Hg] _].
    assert (NetEntry.mk pid (Some g) (Some n) ∈ sideNets gross playersById h ids)
      as Hx by (apply elem_of_sideNets; eauto 10).
    rewrite Hnil in Hx. by apply not_elem_of_nil in Hx.
Qed.

(** The fourball branch never throws: [bestOf] is read only on non-empty
    arrays. *)
Lemma fourballHole_spec m playersById h :
  exists r,
    fourballHole m playersById h = Some r /\
    HoleResult.hole r = Hole.hole h /\
    fourballDegrades m playersById h r /\
    (HoleResult.played r = false ->
     HoleResult.winnerSideId r = None /\
     HoleResult.details r = fourball None None).
Proof.
  unfold fourballHole, fourballDegrades. cbv zeta.
  set (gross := fun pid => lookupGross (Match.fourballGrossByPlayer m) pid (Hole.hole h)).
  set (aIds := Side.playerIds (Match.sideA m)).
  set (bIds := Side.playerIds (Match.sideB m)).
  pose proof (sideNets_nonempty gross playersById h aIds) as HA.
  pose proof (sideNets_nonempty gross playersById h bIds) as HB.
  pose proof (sideNets_usable gross playersById h aIds) as HuA.
  pose proof (sideNets_usable gross playersById h bIds) as HuB.
  destruct (sideNets gross playersById h aIds) as [|a0 aN] eqn:Ea.
  { eexists. split; [reflexivity|]. cbn. split; [done|]. split; [|done].
    split; [|by intros ea eb [= <- <-]].
    split; [done|]. intros [Hex _]. by apply HA in Hex. }
  destruct (sideNets gross playersById h bIds) as [|b0 bN] eqn:Eb.
  { eexists. split; [reflexivity|]. cbn. split; [done|]. split; [|done].
    split; [|by intros ea eb [= <- <-]].
    split; [done|]. intros [_ Hex]. by apply HB in Hex. }
  destruct (bestOf_spec (a0 :: aN)) as (ea & Hea & Hina & _); [done|].
  destruct (bestOf_spec (b0 :: bN)) as (eb & Heb & Hinb & _); [done|].
  rewrite Hea, Heb. cbn [length Nat.eqb orb mbind option_bind].
  eexists. split; [reflexivity|].
  cbn [HoleResult.hole HoleResult.played HoleResult.winnerSideId HoleResult.details].
  split; [done|]. split; [|done]. split.
  - split; [intros _|done]. split; [by apply HA | by apply HB].
  - intros ? ? [= <- <-]. split; intros e [= <-]; [by apply HuA | by apply HuB].
Qed.

Lemma scrambleHole_spec m h :
  HoleResult.hole (scrambleHole m h) = Hole.hole h /\
  scrambleDegrades m h (scrambleHole m h) /\
  (HoleResult.played (scrambleHole m h) = false ->
   HoleResult.winnerSideId (scrambleHole m h) = None /\
   HoleResult.details (scrambleHole m h) = scramble None None None None).
Proof.
  unfold scrambleDegrades, scramblePlayed.
  destruct (sideGross m (Side.id (Match.sideA m)) h) as [ag|] eqn:Ea;
    [destruct (sideGross m (Side.id (Match.sideB m)) h) as [bg|] eqn:Eb|].
  - rewrite (scrambleHole_played m h ag bg Ea Eb). cbn. split; [done|].
    split; [|done]. split; [eauto|done].
  - rewrite scrambleHole_notPlayed by (by right). cbn. split; [done|].
    split; [|done]. split; [done|]. intros [_ [? [=]]].
  - rewrite scrambleHole_notPlayed by (by left). cbn. split; [done|].
    split; [|done]. split; [done|]. intros [[? [=]] _].
Qed.

Lemma singlesHole_spec m playersById h :
  HoleResult.hole (singlesHole m playersById h) = Hole.hole h /\
  singlesDegrades m playersById h (singlesHole m playersById h) /\
  (HoleResult.played (singlesHole m playersById h) = false ->
   HoleResult.winnerSideId (singlesHole m playersById h) = None /\
   HoleResult.details (singlesHole m playersById h) = singles None None None None).
Proof.
  unfold singlesHole, singlesDegrades. cbv zeta.
  set (aPid := propertyKey (head (Side.playerIds (Match.sideA m)))).
  set (bPid := propertyKey (head (Side.playerIds (Match.sideB m)))).
  destruct (lookupGross (Match.singlesGrossByPlayer m) aPid (Hole.hole h)) as [ag|];
    [destruct (lookupGross (Match.singlesGrossByPlayer m) bPid (Hole.hole h)) as [bg|]|].
  - cbn [HoleResult.hole HoleResult.played HoleResult.winnerSideId HoleResult.details].
    split; [done|]. split; [|done]. split; [split; eauto|].
    intros _. do 2 eexists. split; [reflexivity|].
    split; [by intros ->|]. split; [by intros ->|].
    intros [-> | ->]; [done|]. cbn [playerNet]. by destruct (playerNet _ _ _).
  - cbn. split; [done|]. split; [|done]. split; [|done].
    split; [done|]. intros [_ [? [=]]].
  - cbn. split; [done|]. split; [|done]. split; [|done].
    split; [done|]. intros [[? [=]] _].
Qed.

Lemma computeHole_spec m playersById h :
  exists r, computeHole m playersById h = Some r /\
            holeDegrades m playersById h r.
Proof.
  unfold computeHole, holeDegrades, unplayedDetails.
  destruct (String.eqb_spec (Match.format m) "FOURBALL_NET") as [Hf|Hf].
  { destruct (fourballHole_spec m playersById h) as (r & Hr & Hh & Hd & Hu).
    exists r. split; [exact Hr|]. rewrite Hf.
    split; [exact Hh|]. split; [exact Hu|]. split; [done|]. by split. }
  destruct (String.eqb_spec (Match.format m) "SCRAMBLE_STABLEFORD") as [Hs|Hs].
  { destruct (scrambleHole_spec m h) as (Hh & Hd & Hu).
    eexists. split; [reflexivity|]. rewrite Hs.
    split; [exact Hh|]. split; [exact Hu|]. split; [done|]. by split. }
  destruct (singlesHole_spec m playersById h) as (Hh & Hd & Hu).
  eexists. split; [reflexivity|].
  split; [exact Hh|]. split; [exact Hu|]. split; [done|]. by split.
Qed.




(** ** Clearing all raw entries *)

Lemma mapM_total_ext {A B} (f : A -> option B) (g : A -> B) (l : list A) :
  (forall x, f x = Some (g x)) -> mapM f l = Some (map g l).
Proof.
  intros Hfg. induction l as [|x l IH]; [done|]. cbn. by rewrite Hfg, IH.
Qed.

Lemma cleared_not_usable m playersById hole pid :
  cleared m ->
  ~ usable (fun pid => lookupGross (Match.fourballGrossByPlayer m) pid hole)
           playersById pid.
Proof.
  intros Hc [[g Hg] _]. destruct (Hc pid hole) as (Hf & _). congruence.
Qed.

Lemma computeHole_cleared m playersById h :
  cleared m -> computeHole m playersById h = Some (unplayedHole m h).
Proof.
  intros Hc. unfold computeHole, unplayedHole, unplayedDetails.
  destruct (String.eqb (Match.format m) "FOURBALL_NET").
  { destruct (fourballHole_spec m playersById h) as (r & Hr & Hh & [Hp _] & Hu).
    rewrite Hr. f_equal.
    assert (HoleResult.played r = false) as Hnp.
    { destruct (HoleResult.played r); [|done].
      destruct Hp as [[(pid & _ & Hus) _] _]; [done|].
      by apply cleared_not_usable in Hus. }
    destruct (Hu Hnp) as [Hw Hd]. destruct r. cbn in *. by subst. }
  destruct (String.eqb (Match.format m) "SCRAMBLE_STABLEFORD").
  { rewrite scrambleHole_notPlayed; [done|].
    left. apply (Hc (Side.id (Match.sideA m)) (Hole.hole h)). }
  unfold singlesHole. cbv zeta.
  by rewrite (proj2 (proj2 (Hc _ (Hole.hole h)))).
Qed.

Lemma tally_unplayed sideAId sideBId (holes : list Outcome.t) acc :
  Forall (fun o => Outcome.played o = false) holes ->
  fold_left (tallyStep sideAId sideBId) holes acc = acc.
Proof.
  intros Hall. revert acc. induction Hall as [|o l Ho _ IH]; intros acc; [done|].
  cbn [fold_left]. unfold tallyStep at 2. destruct acc as [[a b] p].
  rewrite Ho. cbn [negb]. apply IH.
Qed.

Lemma totals_unplayed (mh : list HoleResult.t) acc :
  Forall (fun r => HoleResult.played r = false) mh ->
  fold_left totalsStep mh acc = acc.
Proof.
  intros Hall. revert acc. induction Hall as [|r l Hr _ IH]; intros acc; [done|].
  cbn [fold_left]. unfold totalsStep at 2. destruct acc as [[a b] p].
  rewrite Hr. cbn [negb]. apply IH.
Qed.

Lemma zero_points_lookup (tA tB : string) :
  (<[tB := 0%Q]> ({[ tA := 0%Q ]} : gmap string Q)) !! tA = Some 0%Q /\
  (<[tB := 0%Q]> ({[ tA := 0%Q ]} : gmap string Q)) !! tB = Some 0%Q.
Proof.
  split; [|by rewrite lookup_insert_eq].
  destruct (decide (tB = tA)) as [->|Hne]; [by rewrite lookup_insert_eq|].
  by rewrite lookup_insert_ne, lookup_singleton_eq.
Qed.

(** C9, as amended: once every raw gross entry of a match is removed, no
    hole is played and the status is the initial one of the format's tracker
    -- "Not Started" for Fourball-Net and Singles-Net, "—" for
    Scramble-Stableford -- not final, no leader, tied; both implementations
    of [pointsForFinalMatch] give 0 to both teams. *)
Theorem cleared_match_resets
    (m : Match.t) (holes : list Hole.t) (playersById : gmap string Player.t) :
  cleared m ->
  exists mh,
    computeMatchHoles m holes playersById = Some mh /\
    Forall (fun r => HoleResult.played r = false) mh /\
    let st := statusOf m mh in
    let sideA := Match.sideA m in
    let sideB := Match.sideB m in
    st = (if String.eqb (Match.format m) "SCRAMBLE_STABLEFORD"
          then noTotals else notStarted) /\
    Status.isFinal st = false /\ Status.leaderSideId st = None /\
    Status.isTied st = true /\
    pointsForFinalMatch st sideA sideB !! Side.teamId sideA = Some 0%Q /\
    pointsForFinalMatch st sideA sideB !! Side.teamId sideB = Some 0%Q /\
    Prototype.pointsForFinalMatch st sideA sideB !! Side.teamId sideA = Some 0%Q /\
    Prototype.pointsForFinalMatch st sideA sideB !! Side.teamId sideB = Some 0%Q.
Proof.
  intros Hc. exists (map (unplayedHole m) holes).
  split. { apply mapM_total_ext. intros h. by apply computeHole_cleared. }
  assert (Hall : Forall (fun r => HoleResult.played r = false)
                        (map (unplayedHole m) holes)).
  { apply Forall_forall. intros r (h & <- & _)%list_elem_of_In%in_map_iff. done. }
  split; [exact Hall|]. cbv zeta.
  assert (Hst : statusOf m (map (unplayedHole m) holes)
                = if String.eqb (Match.format m) "SCRAMBLE_STABLEFORD"
                  then noTotals else notStarted).
  { unfold statusOf. destruct (String.eqb (Match.format m) "SCRAMBLE_STABLEFORD").
    - unfold stablefordTotalsStatusFromHoles, stablefordTotals.
      by rewrite totals_unplayed.
    - unfold matchStatusFromHoles, tallyHoles. rewrite tally_unplayed; [done|].
      apply Forall_forall.
      intros o (r & <- & Hr%list_elem_of_In)%list_elem_of_In%in_map_iff.
      rewrite Forall_forall in Hall. by apply Hall. }
  rewrite Hst. split; [reflexivity|].
  unfold pointsForFinalMatch, Prototype.pointsForFinalMatch.
  destruct (String.eqb (Match.format m) "SCRAMBLE_STABLEFORD");
    cbn [noTotals notStarted Status.isFinal Status.leaderSideId Status.isTied negb];
    (split; [reflexivity|]); (split; [reflexivity|]); (split; [reflexivity|]);
    pose proof (zero_points_lookup (Side.teamId (Match.sideA m))
                                   (Side.teamId (Match.sideB m))) as [H1 H2];
    by rewrite H1, H2.
Qed.

Lemma cleared_match_resets_witness :
  cleared (d2m1 ∅) /\
  exists mh,
    computeMatchHoles (d2m1 ∅) COURSES_2_holes samplePlayersById = Some mh /\
    Forall (fun r => HoleResult.played r = false) mh.
Proof.
  assert (Hc : cleared (d2m1 ∅)).
  { intros key hole. repeat split; reflexivity. }
  split; [exact Hc|].
  destruct (cleared_match_resets (d2m1 ∅) COURSES_2_holes samplePlayersById Hc)
    as (mh & Hmh & Hall & _).
  exists mh. split; [exact Hmh | exact Hall].
Defined.

(** C9 as stated fails: a cleared Scramble-Stableford match is labelled
    "—", not "Not Started". *)
Lemma cleared_scramble_label :
  cleared (d2m1 ∅) /\
  exists mh,
    computeMatchHoles (d2m1 ∅) COURSES_2_holes samplePlayersById = Some mh /\
    Status.text (statusOf (d2m1 ∅) mh) = "—" /\
    Status.text (statusOf (d2m1 ∅) mh) <> "Not Started".
Proof.
  split; [intros key hole; repeat split; reflexivity|].
  eexists. split; [vm_compute; reflexivity|].
  split; [vm_compute; reflexivity|]. vm_compute. discriminate.
Qed.

(** ** Handicap strokes over a round *)

Lemma foldr_add_perm (l k : list Z) :
  l ≡ₚ k -> foldr Z.add 0 l = foldr Z.add 0 k.
Proof. induction 1; cbn; lia. Qed.

Lemma strokes_on_ranks_1_to_18 (q r : Z) :
  0 <= r < 18 ->
  foldr Z.add 0 (map (fun k => q + (if k <=? r then 1 else 0)) (seqZ 1 18))
  = 18 * q + r.
Proof.
  intros Hr.
  assert (r = 0 \/ r = 1 \/ r = 2 \/ r = 3 \/ r = 4 \/ r = 5 \/ r = 6 \/ r = 7 \/
          r = 8 \/ r = 9 \/ r = 10 \/ r = 11 \/ r = 12 \/ r = 13 \/ r = 14 \/
          r = 15 \/ r = 16 \/ r = 17) as Hcases by lia.
  repeat (destruct Hcases as [-> | Hcases]); try subst r.
  all: change (seqZ 1 18) with [1;2;3;4;5;6;7;8;9;10;11;12;13;14;15;16;17;18].
  all: (cbn [map foldr Z.leb Z.compare Pos.compare Pos.compare_cont]).
  all: lia.
Qed.

(** Over 18 holes whose handicap ranks are a permutation of 1..18, a player
    with a non-negative course handicap receives exactly that many strokes;
    this holds on the three courses of [COURSES]. *)
Theorem strokes_over_round_sum_to_handicap (courseHcp : Z) (holes : list Hole.t) :
  0 <= courseHcp ->
  map Hole.hcpRank holes ≡ₚ seqZ 1 18 ->
  roundStrokes courseHcp holes = courseHcp.
Proof.
  intros Hc Hperm. unfold roundStrokes.
  rewrite <- (map_map Hole.hcpRank (strokesReceivedOnHole courseHcp)).
  rewrite (foldr_add_perm _ (map (strokesReceivedOnHole courseHcp) (seqZ 1 18)))
    by (by apply Permutation_map).
  unfold strokesReceivedOnHole. cbv zeta. rewrite Z.rem_mod_nonneg by lia.
  rewrite strokes_on_ranks_1_to_18 by (apply Z.mod_pos_bound; lia).
  symmetry. apply Z.div_mod. lia.
Qed.

Lemma ranks_permutation_by_count (ranks : list Z) :
  NoDup ranks -> Forall (fun r => r ∈ ranks) (seqZ 1 18) ->
  Forall (fun r => r ∈ seqZ 1 18) ranks ->
  ranks ≡ₚ seqZ 1 18.
Proof.
  intros Hnd Hin1 Hin2. apply NoDup_Permutation; [done|apply NoDup_seqZ|].
  intros x. rewrite Forall_forall in Hin1, Hin2. split; auto.
Qed.

Lemma strokes_over_round_sum_to_handicap_witness :
  0 <= 20 /\
  map Hole.hcpRank COURSES_1_holes ≡ₚ seqZ 1 18 /\
  map Hole.hcpRank COURSES_2_holes ≡ₚ seqZ 1 18 /\
  map Hole.hcpRank COURSES_3_holes ≡ₚ seqZ 1 18 /\
  roundStrokes 20 COURSES_2_holes = 20.
Proof.
  assert (H0 : 0 <= 20) by lia.
  assert (H1 : map Hole.hcpRank COURSES_1_holes ≡ₚ seqZ 1 18).
  { apply ranks_permutation_by_count; (match goal with |- ?P => apply (bool_decide_unpack P) end; vm_compute; exact I). }
  assert (H2 : map Hole.hcpRank COURSES_2_holes ≡ₚ seqZ 1 18).
  { apply ranks_permutation_by_count; (match goal with |- ?P => apply (bool_decide_unpack P) end; vm_compute; exact I). }
  assert (H3 : map Hole.hcpRank COURSES_3_holes ≡ₚ seqZ 1 18).
  { apply ranks_permutation_by_count; (match goal with |- ?P => apply (bool_decide_unpack P) end; vm_compute; exact I). }
  split; [exact H0|]. split; [exact H1|]. split; [exact H2|]. split; [exact H3|].
  exact (strokes_over_round_sum_to_handicap 20 COURSES_2_holes H0 H2).
Defined.

(** The strokes received never decrease with the handicap and never increase
    with the rank of the hole; for a non-negative handicap they are
    [floor(courseHcp/18)] or one more. *)
Theorem strokesReceivedOnHole_monotone (c c' r r' : Z) :
  0 <= c ->
  (c <= c' -> strokesReceivedOnHole c r <= strokesReceivedOnHole c' r) /\
  (r <= r' -> strokesReceivedOnHole c r' <= strokesReceivedOnHole c r) /\
  c / 18 <= strokesReceivedOnHole c r <= c / 18 + 1.
Proof.
  intros Hc. unfold strokesReceivedOnHole. cbv zeta.
  rewrite (Z.rem_mod_nonneg c) by lia.
  pose proof (Z.div_mod c 18 ltac:(lia)) as Hdm.
  pose proof (Z.mod_pos_bound c 18 ltac:(lia)) as Hm.
  split; [|split].
  - intros Hle. rewrite (Z.rem_mod_nonneg c') by lia.
    pose proof (Z.div_mod c' 18 ltac:(lia)) as Hdm'.
    pose proof (Z.mod_pos_bound c' 18 ltac:(lia)) as Hm'.
    destruct (Z.leb_spec r (c mod 18)), (Z.leb_spec r (c' mod 18)); lia.
  - intros Hle.
    destruct (Z.leb_spec r (c mod 18)), (Z.leb_spec r' (c mod 18)); lia.
  - destruct (Z.leb_spec r (c mod 18)); lia.
Qed.

Lemma strokesReceivedOnHole_monotone_witness :
  0 <= 13 /\ strokesReceivedOnHole 13 12 <= strokesReceivedOnHole 23 12.
Proof.
  split; [lia|].
  exact (proj1 (strokesReceivedOnHole_monotone 13 23 12 12 ltac:(lia)) ltac:(lia)).
Defined.

(** A negative course handicap from -18 to -1 takes one stroke away on every
    hole of positive rank: [Math.floor] rounds down to -1 and the remainder
    of [%] is not positive. *)
Theorem strokesReceivedOnHole_negative_handicap (c r : Z) :
  -18 <= c < 0 -> 1 <= r -> strokesReceivedOnHole c r = -1.
Proof.
  intros Hc Hr. unfold strokesReceivedOnHole. cbv zeta.
  assert (Hq : c / 18 = -1).
  { symmetry. apply (Z.div_unique c 18 (-1) (c + 18)); lia. }
  assert (Hrem : Z.rem c 18 <= 0).
  { apply Z.rem_nonpos; lia. }
  rewrite Hq. destruct (Z.leb_spec r (Z.rem c 18)); lia.
Qed.

Lemma strokesReceivedOnHole_negative_handicap_witness :
  -18 <= -2 < 0 /\ 1 <= 7 /\ strokesReceivedOnHole (-2) 7 = -1.
Proof.
  split; [lia|]. split; [lia|].
  exact (strokesReceivedOnHole_negative_handicap (-2) 7 ltac:(lia) ltac:(lia)).
Defined.

(** ** Stableford points and the scramble hole *)

Lemma stablefordFromDiff_le (d d' : Z) :
  d <= d' -> stablefordFromDiff d' <= stablefordFromDiff d.
Proof.
  intros Hle. unfold stablefordFromDiff.
  repeat match goal with
         | |- context [?a <=? ?b] => destruct (Z.leb_spec a b)
         | |- context [?a =? ?b] => destruct (Z.eqb_spec a b)
         end; lia.
Qed.

(** Stableford points never increase with the strokes taken, and are one of
    the six values of the table. *)
Theorem stablefordFromDiff_antitone (d d' : Z) :
  (d <= d' -> stablefordFromDiff d' <= stablefordFromDiff d) /\
  stablefordFromDiff d ∈ [10; 6; 3; 1; -1; -2].
Proof.
  split; [apply stablefordFromDiff_le|]. unfold stablefordFromDiff.
  - repeat match goal with
           | |- context [?a <=? ?b] => destruct (Z.leb_spec a b)
           | |- context [?a =? ?b] => destruct (Z.eqb_spec a b)
           end; set_solver.
Qed.

Lemma stablefordFromDiff_antitone_witness :
  -1 <= 2 /\ stablefordFromDiff 2 <= stablefordFromDiff (-1).
Proof.
  split; [lia|].
  exact (proj1 (stablefordFromDiff_antitone (-1) 2) ltac:(lia)).
Defined.

(** On a scramble hole with both gross scores entered, the side named as
    winner took strictly fewer strokes, equal strokes halve the hole, and so
    do two scores of double bogey or worse whatever their difference. *)
Theorem scramble_winner_took_fewer_strokes (m : Match.t) (h : Hole.t) (ag bg : Z) :
  sideGross m (Side.id (Match.sideA m)) h = Some ag ->
  sideGross m (Side.id (Match.sideB m)) h = Some bg ->
  let r := scrambleHole m h in
  HoleResult.played r = true /\
  (HoleResult.winnerSideId r = Some (Side.id (Match.sideA m)) -> ag < bg) /\
  (HoleResult.winnerSideId r = Some (Side.id (Match.sideB m)) -> bg < ag) /\
  (ag = bg -> HoleResult.winnerSideId r = None) /\
  (Hole.par h + 2 <= ag -> Hole.par h + 2 <= bg ->
   HoleResult.winnerSideId r = None).
Proof.
  intros Ha Hb r. subst r. rewrite (scrambleHole_played m h ag bg Ha Hb).
  cbv zeta. cbn [HoleResult.played HoleResult.winnerSideId].
  pose proof (stablefordFromDiff_le (ag - Hole.par h) (bg - Hole.par h)) as Hab.
  pose proof (stablefordFromDiff_le (bg - Hole.par h) (ag - Hole.par h)) as Hba.
  assert (Hsame : Side.id (Match.sideA m) = Side.id (Match.sideB m) -> ag = bg).
  { intros Heq. rewrite Heq in Ha. congruence. }
  split; [done|].
  destruct (Z.ltb_spec (stablefordFromDiff (bg - Hole.par h))
                       (stablefordFromDiff (ag - Hole.par h))) as [H1|H1];
    [|destruct (Z.ltb_spec (stablefordFromDiff (ag - Hole.par h))
                           (stablefordFromDiff (bg - Hole.par h))) as [H2|H2]].
  - assert (ag < bg) by lia.
    split; [done|]. split; [intros [= Heq]; specialize (Hsame Heq); lia|].
    split; [intros; lia|]. intros Hda Hdb. exfalso. revert H1.
    unfold stablefordFromDiff.
    repeat match goal with
           | |- context [?a <=? ?b] => destruct (Z.leb_spec a b)
           | |- context [?a =? ?b] => destruct (Z.eqb_spec a b)
           end; lia.
  - assert (bg < ag) by lia.
    split; [intros [= Heq]; symmetry in Heq; specialize (Hsame Heq); lia|].
    split; [done|]. split; [intros; lia|]. intros Hda Hdb. exfalso. revert H2.
    unfold stablefordFromDiff.
    repeat match goal with
           | |- context [?a <=? ?b] => destruct (Z.leb_spec a b)
           | |- context [?a =? ?b] => destruct (Z.eqb_spec a b)
           end; lia.
  - repeat split; done.
Qed.

Lemma scramble_winner_took_fewer_strokes_witness :
  let h := Hole.mk 17 4 14 in
  sideGross tiedScramble "d2m1-A" h = Some 5 /\
  sideGross tiedScramble "d2m1-B" h = Some 5 /\
  HoleResult.played (scrambleHole tiedScramble h) = true.
Proof.
  intros h.
  assert (Ha : sideGross tiedScramble (Side.id (Match.sideA tiedScramble)) h = Some 5)
    by (vm_compute; reflexivity).
  assert (Hb : sideGross tiedScramble (Side.id (Match.sideB tiedScramble)) h = Some 5)
    by (vm_compute; reflexivity).
  split; [exact Ha|]. split; [exact Hb|].
  exact (proj1 (scramble_winner_took_fewer_strokes tiedScramble h 5 5 Ha Hb)).
Defined.

(** ** The number stepper *)

(** With [min <= max], [clamp] lands in [[min, max]], leaves values of the
    range alone, and the stepper buttons always hand a value of the range to
    the setter: [min] from an empty field, one less or one more otherwise,
    stopping at the ends. *)
Theorem stepper_stays_in_range (value : option Z) (n min max : Z) :
  min <= max ->
  (min <= clamp n min max <= max) /\
  (min <= n <= max -> clamp n min max = n) /\
  clamp (clamp n min max) min max = clamp n min max /\
  (min <= stepDown value min max <= max) /\
  (min <= stepUp value min max <= max) /\
  (stepDown None min max = min /\ stepUp None min max = min) /\
  (stepDown (Some min) min max = min /\ stepUp (Some max) min max = max) /\
  (min < n <= max -> stepDown (Some n) min max = n - 1) /\
  (min <= n < max -> stepUp (Some n) min max = n + 1).
Proof.
  intros Hmm. unfold stepDown, stepUp, clamp.
  destruct value as [v|]; repeat split; intros; lia.
Qed.

Lemma stepper_stays_in_range_witness :
  1 <= 12 /\ stepUp (Some 12) 1 12 = 12 /\ stepDown (Some 1) 1 12 = 1.
Proof.
  split; [lia|].
  destruct (stepper_stays_in_range None 12 1 12 ltac:(lia))
    as (_ & _ & _ & _ & _ & _ & [Hd Hu] & _).
  split; [exact Hu | exact Hd].
Defined.

(** ** Score entry: the setters of [MatchPage] *)

Lemma lookup_setGrossIn (store : GrossStore) (key key' : string)
    (holeNum holeNum' : Z) (gross : option Z) :
  lookupGross (Some (setGrossIn store key holeNum gross)) key' holeNum'
  = if bool_decide (key' = key /\ holeNum' = holeNum) then gross
    else lookupGross store key' holeNum'.
Proof.
  unfold lookupGross, setGrossIn. cbv zeta. cbn [mbind option_bind].
  destruct (decide (key' = key)) as [->|Hk].
  - rewrite lookup_insert_eq. cbn [mbind option_bind].
    destruct (decide (holeNum' = holeNum)) as [->|Hh].
    + rewrite bool_decide_eq_true_2 by done.
      destruct gross; [by rewrite lookup_insert_eq | by rewrite lookup_delete_eq].
    + rewrite bool_decide_eq_false_2 by (intros [_ ?]; done).
      replace ((match gross with
                | Some g => <[holeNum:=g]> (default ∅ (default ∅ store !! key))
                | None => delete holeNum (default ∅ (default ∅ store !! key))
                end) !! holeNum')
        with (default ∅ (default ∅ store !! key) !! holeNum')
        by (destruct gross; [by rewrite lookup_insert_ne | by rewrite lookup_delete_ne]).
      destruct store as [g|]; cbn; [|done].
      destruct (g !! key); cbn; [done|]. apply lookup_empty.
  - rewrite bool_decide_eq_false_2 by (intros [? _]; done).
    rewrite lookup_insert_ne by done.
    destruct store as [g|]; cbn; [done|]. by rewrite lookup_empty.
Qed.

(** Read-your-write: after a setter the store holds the new gross (or no
    entry, for [null]) at the written key and hole, and what it held before
    everywhere else. *)
Theorem setGrossIn_read_your_write (store : GrossStore) (key key' : string)
    (holeNum holeNum' : Z) (gross : option Z) :
  lookupGross (Some (setGrossIn store key holeNum gross)) key' holeNum'
  = if bool_decide (key' = key /\ holeNum' = holeNum) then gross
    else lookupGross store key' holeNum'.
Proof. apply lookup_setGrossIn. Qed.

(** Entering and then clearing a gross that was not there before leaves every
    lookup as it was; entering twice keeps the last value. *)
Theorem setGrossIn_undo (store : GrossStore) (key : string) (holeNum : Z)
    (g g' : Z) (key' : string) (holeNum' : Z) :
  (lookupGross store key holeNum = None ->
   lookupGross (Some (setGrossIn (Some (setGrossIn store key holeNum (Some g)))
                                 key holeNum None)) key' holeNum'
   = lookupGross store key' holeNum') /\
  lookupGross (Some (setGrossIn (Some (setGrossIn store key holeNum (Some g)))
                                key holeNum (Some g'))) key' holeNum'
  = lookupGross (Some (setGrossIn store key holeNum (Some g'))) key' holeNum'.
Proof.
  rewrite !lookup_setGrossIn. split.
  - intros Hnone. case_bool_decide as H; [|done]. destruct H as [-> ->]. done.
  - by case_bool_decide.
Qed.

Lemma setGrossIn_undo_witness :
  lookupGross (Some ∅) "p1" 3 = None /\
  lookupGross (Some (setGrossIn (Some (setGrossIn (Some ∅) "p1" 3 (Some 5)))
                                "p1" 3 None)) "p1" 3
  = lookupGross (Some ∅) "p1" 3.
Proof.
  assert (H : lookupGross (Some ∅) "p1" 3 = None) by reflexivity.
  split; [exact H|].
  exact (proj1 (setGrossIn_undo (Some ∅) "p1" 3 5 5 "p1" 3) H).
Defined.

Lemma sideNets_ext (g1 g2 : string -> option Z) playersById h ids :
  (forall pid, pid ∈ ids -> g1 pid = g2 pid) ->
  sideNets g1 playersById h ids = sideNets g2 playersById h ids.
Proof.
  unfold sideNets. cbv zeta. induction ids as [|pid ids IH]; intros Hext; [done|].
  cbn [map]. rewrite !filter_cons. cbn [NetEntry.gross NetEntry.net].
  rewrite (Hext pid) by set_solver. rewrite IH by (intros; apply Hext; set_solver).
  done.
Qed.

(** The result of a hole depends on the three stores only through the
    lookups at that hole's number. *)
Lemma computeHole_ext (m m' : Match.t) playersById h :
  Match.format m' = Match.format m ->
  Match.sideA m' = Match.sideA m ->
  Match.sideB m' = Match.sideB m ->
  (forall key,
      lookupGross (Match.fourballGrossByPlayer m') key (Hole.hole h)
      = lookupGross (Match.fourballGrossByPlayer m) key (Hole.hole h) /\
      lookupGross (Match.scrambleGrossBySide m') key (Hole.hole h)
      = lookupGross (Match.scrambleGrossBySide m) key (Hole.hole h) /\
      lookupGross (Match.singlesGrossByPlayer m') key (Hole.hole h)
      = lookupGross (Match.singlesGrossByPlayer m) key (Hole.hole h)) ->
  computeHole m' playersById h = computeHole m playersById h.
Proof.
  intros Hf HA HB Hl. unfold computeHole. rewrite Hf.
  destruct (String.eqb (Match.format m) "FOURBALL_NET").
  { unfold fourballHole. cbv zeta. rewrite HA, HB.
    rewrite (sideNets_ext
               (fun pid => lookupGross (Match.fourballGrossByPlayer m') pid (Hole.hole h))
               (fun pid => lookupGross (Match.fourballGrossByPlayer m) pid (Hole.hole h))
               playersById h (Side.playerIds (Match.sideA m)))
      by (intros; apply Hl).
    rewrite (sideNets_ext
               (fun pid => lookupGross (Match.fourballGrossByPlayer m') pid (Hole.hole h))
               (fun pid => lookupGross (Match.fourballGrossByPlayer m) pid (Hole.hole h))
               playersById h (Side.playerIds (Match.sideB m)))
      by (intros; apply Hl).
    done. }
  destruct (String.eqb (Match.format m) "SCRAMBLE_STABLEFORD").
  { unfold scrambleHole. cbv zeta. rewrite HA, HB.
    rewrite (proj1 (proj2 (Hl (Side.id (Match.sideA m))))).
    rewrite (proj1 (proj2 (Hl (Side.id (Match.sideB m))))). done. }
  unfold singlesHole. cbv zeta. rewrite HA, HB.
  rewrite (proj2 (proj2 (Hl (propertyKey (head (Side.playerIds (Match.sideA m))))))).
  rewrite (proj2 (proj2 (Hl (propertyKey (head (Side.playerIds (Match.sideB m))))))).
  done.
Qed.

(** Entering or clearing a gross for one hole, through any of the three
    setters, changes the result of no other hole. *)
Theorem setters_leave_other_holes (m : Match.t)
    (playersById : gmap string Player.t) (key : string) (holeNum : Z)
    (gross : option Z) (h : Hole.t) :
  Hole.hole h <> holeNum ->
  computeHole (setFourballGross m key holeNum gross) playersById h
    = computeHole m playersById h /\
  computeHole (setSinglesGross m key holeNum gross) playersById h
    = computeHole m playersById h /\
  computeHole (setScrambleGross m key holeNum gross) playersById h
    = computeHole m playersById h.
Proof.
  intros Hne.
  repeat split; apply computeHole_ext; try reflexivity; intros key';
    cbn [setFourballGross setSinglesGross setScrambleGross
         Match.fourballGrossByPlayer Match.scrambleGrossBySide
         Match.singlesGrossByPlayer];
    rewrite ?lookup_setGrossIn;
    rewrite ?bool_decide_eq_false_2 by (intros [_ ?]; done); done.
Qed.

Lemma setters_leave_other_holes_witness :
  Hole.hole course1Hole1 <> 2 /\
  computeHole (setFourballGross fourballOpening "p12" 2 (Some 4))
              samplePlayersById course1Hole1
  = computeHole fourballOpening samplePlayersById course1Hole1.
Proof.
  assert (H : Hole.hole course1Hole1 <> 2) by discriminate.
  split; [exact H|].
  exact (proj1 (setters_leave_other_holes fourballOpening samplePlayersById
                  "p12" 2 (Some 4) course1Hole1 H)).
Defined.

(** Entering or clearing a gross under a key that is neither a player of the
    two sides (fourball), nor the first player of a side (singles), nor a
    side id (scramble) changes no hole result at all. *)
Theorem setters_ignore_foreign_keys (m : Match.t)
    (playersById : gmap string Player.t) (key : string) (holeNum : Z)
    (gross : option Z) (h : Hole.t) :
  (Match.format m = "FOURBALL_NET" ->
   key ∉ Side.playerIds (Match.sideA m) -> key ∉ Side.playerIds (Match.sideB m) ->
   computeHole (setFourballGross m key holeNum gross) playersById h
   = computeHole m playersById h) /\
  (Match.format m = "SCRAMBLE_STABLEFORD" ->
   key <> Side.id (Match.sideA m) -> key <> Side.id (Match.sideB m) ->
   computeHole (setScrambleGross m key holeNum gross) playersById h
   = computeHole m playersById h) /\
  (Match.format m = "SINGLES_NET" ->
   key <> propertyKey (head (Side.playerIds (Match.sideA m))) ->
   key <> propertyKey (head (Side.playerIds (Match.sideB m))) ->
   computeHole (setSinglesGross m key holeNum gross) playersById h
   = computeHole m playersById h).
Proof.
  split; [|split].
  - intros Hf HA HB. unfold computeHole. cbn [setFourballGross Match.format].
    rewrite Hf, String.eqb_refl. unfold fourballHole. cbv zeta.
    cbn [setFourballGross Match.sideA Match.sideB Match.fourballGrossByPlayer].
    rewrite (sideNets_ext
      (fun pid => lookupGross (Some (setGrossIn (Match.fourballGrossByPlayer m) key holeNum gross)) pid (Hole.hole h))
      (fun pid => lookupGross (Match.fourballGrossByPlayer m) pid (Hole.hole h))
      playersById h (Side.playerIds (Match.sideA m))).
    2:{ intros pid Hin. rewrite lookup_setGrossIn.
        rewrite bool_decide_eq_false_2; [done|]. intros [-> _]. done. }
    rewrite (sideNets_ext
      (fun pid => lookupGross (Some (setGrossIn (Match.fourballGrossByPlayer m) key holeNum gross)) pid (Hole.hole h))
      (fun pid => lookupGross (Match.fourballGrossByPlayer m) pid (Hole.hole h))
      playersById h (Side.playerIds (Match.sideB m))).
    2:{ intros pid Hin. rewrite lookup_setGrossIn.
        rewrite bool_decide_eq_false_2; [done|]. intros [-> _]. done. }
    done.
  - intros Hf HA HB. unfold computeHole. cbn [setScrambleGross Match.format].
    rewrite Hf. cbn [String.eqb Ascii.eqb Bool.eqb andb].
    unfold scrambleHole. cbv zeta.
    cbn [setScrambleGross Match.sideA Match.sideB Match.scrambleGrossBySide].
    rewrite !lookup_setGrossIn.
    rewrite !bool_decide_eq_false_2 by (intros [? _]; done). done.
  - intros Hf HA HB. unfold computeHole. cbn [setSinglesGross Match.format].
    rewrite Hf. cbn [String.eqb Ascii.eqb Bool.eqb andb].
    unfold singlesHole. cbv zeta.
    cbn [setSinglesGross Match.sideA Match.sideB Match.singlesGrossByPlayer].
    rewrite !lookup_setGrossIn.
    rewrite !bool_decide_eq_false_2 by (intros [? _]; done). done.
Qed.

Lemma setters_ignore_foreign_keys_witness :
  Match.format fourballOpening = "FOURBALL_NET" /\
  ("p7" ∉ Side.playerIds (Match.sideA fourballOpening)) /\
  ("p7" ∉ Side.playerIds (Match.sideB fourballOpening)) /\
  computeHole (setFourballGross fourballOpening "p7" 1 (Some 3))
              samplePlayersById course1Hole1
  = computeHole fourballOpening samplePlayersById course1Hole1.
Proof.
  assert (Hf : Match.format fourballOpening = "FOURBALL_NET") by reflexivity.
  assert (HA : "p7" ∉ Side.playerIds (Match.sideA fourballOpening)).
  { apply (bool_decide_unpack _). vm_compute. exact I. }
  assert (HB : "p7" ∉ Side.playerIds (Match.sideB fourballOpening)).
  { apply (bool_decide_unpack _). vm_compute. exact I. }
  split; [exact Hf|]. split; [exact HA|]. split; [exact HB|].
  exact (proj1 (setters_ignore_foreign_keys fourballOpening samplePlayersById
                  "p7" 1 (Some 3) course1Hole1) Hf HA HB).
Defined.

(** ** Tournament totals *)

Lemma pointsForFinalMatch_values status sideA sideB k v :
  pointsForFinalMatch status sideA sideB !! k = Some v ->
  v = 0%Q \/ v = (1#2)%Q \/ v = 1%Q.
Proof.
  unfold pointsForFinalMatch.
  destruct (Status.isFinal status); cbn [negb];
    [destruct (Status.isTied status)|]; cbv zeta;
    intros [[_ <-] | [_ [_ <-]%lookup_singleton_Some]]%lookup_insert_Some; auto.
Qed.

Lemma addPoints_grows status sideA sideB (acc : Q * Q) :
  let acc' := addPoints acc (pointsForFinalMatch status sideA sideB) in
  (acc.1 <= acc'.1)%Q /\ (acc.2 <= acc'.2)%Q /\
  (Status.isFinal status = false -> (acc'.1 == acc.1)%Q /\ (acc'.2 == acc.2)%Q).
Proof.
  destruct acc as [jc sg]. cbv zeta. unfold addPoints. cbn [fst snd].
  assert (Hv : forall k, (0 <= default 0 (pointsForFinalMatch status sideA sideB !! k))%Q /\
                         (Status.isFinal status = false ->
                          (default 0 (pointsForFinalMatch status sideA sideB !! k) == 0)%Q)).
  { intros k. destruct (pointsForFinalMatch status sideA sideB !! k) as [v|] eqn:E;
      cbn [default from_option]; unfold id; [|split; [lra|reflexivity]].
    split.
    - apply pointsForFinalMatch_values in E as [-> | [-> | ->]]; lra.
    - intros Hnf. revert E. unfold pointsForFinalMatch. rewrite Hnf. cbn [negb].
      by intros [[_ <-] | [_ [_ <-]%lookup_singleton_Some]]%lookup_insert_Some. }
  destruct (Hv "JC") as [H1 H1'], (Hv "SG") as [H2 H2'].
  split; [lra|]. split; [lra|]. intros Hnf.
  specialize (H1' Hnf). specialize (H2' Hnf). split; lra.
Qed.

Lemma computeMatchHoles_total m holes playersById :
  is_Some (computeMatchHoles m holes playersById).
Proof.
  apply mapM_is_Some_2, Forall_forall. intros h _.
  destruct (computeHole_spec m playersById h) as (r & Hr & _).
  cbn. rewrite Hr. eauto.
Qed.

Lemma matchCardOf_spec t d holes playersById m :
  exists c, matchCardOf t d holes playersById m = Some c /\
            cardOf holes playersById m c.
Proof.
  unfold matchCardOf, cardOf.
  destruct (computeMatchHoles_total m holes playersById) as [mh Hmh].
  rewrite Hmh. cbn [mbind option_bind]. eexists. split; [reflexivity|].
  cbn. done.
Qed.

Lemma dayLoop_spec (card : Match.t -> option MatchCard.t) ms acc :
  (forall m, m ∈ ms -> is_Some (card m)) ->
  exists acc' cards,
    dayLoop card ms acc = Some (acc', cards) /\
    Forall2 (fun m c => card m = Some c) ms cards /\
    acc' = fold_left (fun a c => addPoints a (MatchCard.points c)) cards acc.
Proof.
  revert acc. induction ms as [|m ms IH]; intros acc Hall.
  - exists acc, []. by repeat split.
  - destruct (Hall m) as [c Hc]; [set_solver|].
    destruct (IH (addPoints acc (MatchCard.points c))) as (acc' & cards & Hl & HF & Hacc).
    { intros; apply Hall; set_solver. }
    exists acc', (c :: cards). cbn [dayLoop]. rewrite Hc. cbn [mbind option_bind].
    rewrite Hl. cbn. split; [done|]. split; [by constructor|]. exact Hacc.
Qed.

Lemma finalMatches_cons c cards :
  finalMatches (c :: cards)
  = (if Status.isFinal (MatchCard.status c) then 1 else 0) + finalMatches cards.
Proof.
  unfold finalMatches. rewrite filter_cons.
  destruct (Status.isFinal (MatchCard.status c)); case_decide; try done;
    cbn [length]; lia.
Qed.

Lemma jcAgainstSg_teams m :
  jcAgainstSg m ->
  Side.teamId (Match.sideA m) <> Side.teamId (Match.sideB m) /\
  (Side.teamId (Match.sideA m) = "JC" \/ Side.teamId (Match.sideA m) = "SG") /\
  (Side.teamId (Match.sideB m) = "JC" \/ Side.teamId (Match.sideB m) = "SG").
Proof. intros [[-> ->] | [-> ->]]; repeat split; auto; discriminate. Qed.

(** The invariant of the day loop. *)
Lemma fold_addPoints_spec cards acc :
  Forall (fun c => MatchCard.points c
                   = pointsForFinalMatch (MatchCard.status c)
                       (Match.sideA (MatchCard.theMatch c))
                       (Match.sideB (MatchCard.theMatch c))) cards ->
  let acc' := fold_left (fun a c => addPoints a (MatchCard.points c)) cards acc in
  (acc.1 <= acc'.1)%Q /\ (acc.2 <= acc'.2)%Q /\
  (Forall (fun c => Status.isFinal (MatchCard.status c) = false) cards ->
   (acc'.1 == acc.1)%Q /\ (acc'.2 == acc.2)%Q) /\
  (Forall (fun c => jcAgainstSg (MatchCard.theMatch c)) cards ->
   (acc'.1 + acc'.2 == acc.1 + acc.2 + inject_Z (finalMatches cards))%Q).
Proof.
  intros Hpts. revert acc. induction Hpts as [|c cards Hc _ IH]; intros acc.
  - cbn [fold_left]. split; [lra|]. split; [lra|].
    split; [intros _; split; reflexivity|].
    intros _. unfold finalMatches. cbn [filter list_filter length Z.of_nat].
    change (inject_Z 0) with 0%Q. rewrite Qplus_0_r. reflexivity.
  - cbn [fold_left]. cbv zeta in *. rewrite Hc.
    set (st := MatchCard.status c).
    set (pts := pointsForFinalMatch st (Match.sideA (MatchCard.theMatch c))
                                    (Match.sideB (MatchCard.theMatch c))).
    destruct (addPoints_grows st (Match.sideA (MatchCard.theMatch c))
                (Match.sideB (MatchCard.theMatch c)) acc) as (H1 & H2 & H3).
    fold pts in H1, H2, H3.
    destruct (IH (addPoints acc pts)) as (I1 & I2 & I3 & I4).
    split; [lra|]. split; [lra|]. split.
    + intros Hnf. apply Forall_cons in Hnf as [Hnf1 Hnf2].
      destruct (H3 Hnf1), (I3 Hnf2). split; lra.
    + intros Hteams. apply Forall_cons in Hteams as [Ht1 Ht2].
      specialize (I4 Ht2). rewrite finalMatches_cons. fold st.
      destruct (jcAgainstSg_teams _ Ht1) as (Hne & HtA & HtB).
      destruct (pointsForFinalMatch_twoKeys st _ _ Hne) as (x & y & Hk & Hsum).
      destruct (twoKeys_total _ _ _ _ _ _ Hne Hk Hsum) as (_ & _ & Hadd).
      destruct acc as [jc sg]. specialize (Hadd HtA HtB jc sg). fold pts in Hadd.
      cbn [fst snd] in *. unfold matchWorth in Hadd. rewrite inject_Z_plus.
      destruct (Status.isFinal st);
        [change (inject_Z 1) with 1%Q | change (inject_Z 0) with 0%Q]; lra.
Qed.

Lemma daySummaryOf_spec t playersById d :
  exists s, daySummaryOf t playersById d = Some s /\ summaryOf t playersById d s.
Proof.
  unfold daySummaryOf, summaryOf. cbv zeta.
  destruct (dayLoop_spec (matchCardOf t d (courseHoles t d) playersById)
              (Day.matches d) (0%Q, 0%Q)) as (acc' & cards & Hl & HF & Hacc).
  { intros m _. destruct (matchCardOf_spec t d (courseHoles t d) playersById m)
      as (c & Hc & _). rewrite Hc. eauto. }
  rewrite Hl. cbn [mbind option_bind fst snd]. eexists. split; [reflexivity|].
  cbn [DaySummary.day DaySummary.jc DaySummary.sg DaySummary.matchCards].
  assert (HC : Forall2 (cardOf (courseHoles t d) playersById) (Day.matches d) cards).
  { eapply Forall2_impl; [exact HF|]. intros m c Hc. cbn in Hc.
    destruct (matchCardOf_spec t d (courseHoles t d) playersById m)
      as (c' & Hc' & Hcard). congruence. }
  assert (HP : Forall (fun c => MatchCard.points c
                 = pointsForFinalMatch (MatchCard.status c)
                     (Match.sideA (MatchCard.theMatch c))
                     (Match.sideB (MatchCard.theMatch c))) cards).
  { clear -HC. induction HC as [|m c ms cs (Hm & _ & _ & Hp) _ IH]; constructor; [|done].
    by rewrite Hm. }
  destruct (fold_addPoints_spec cards (0%Q, 0%Q) HP) as (H1 & H2 & H3 & H4).
  rewrite <- Hacc in H1, H2, H3, H4. cbn [fst snd] in *.
  split; [done|]. split; [exact HC|]. split; [exact H1|]. split; [exact H2|].
  split.
  - intros Hteams. rewrite H4; [lra|].
    clear -HC Hteams. induction HC as [|m c ms cs (Hm & _) _ IH]; [constructor|].
    apply Forall_cons in Hteams as [? ?]. constructor; [by rewrite Hm | by apply IH].
  - exact H3.
Qed.

Lemma totals_fold_spec (ds : list DaySummary.t) (a b : Q) :
  Forall (fun s => (0 <= DaySummary.jc s)%Q /\ (0 <= DaySummary.sg s)%Q) ds ->
  let tj := fold_left (fun s d => (s + DaySummary.jc d)%Q) ds a in
  let ts := fold_left (fun s d => (s + DaySummary.sg d)%Q) ds b in
  (a <= tj)%Q /\ (b <= ts)%Q /\
  (Forall (fun s => (DaySummary.jc s == 0)%Q /\ (DaySummary.sg s == 0)%Q) ds ->
   (tj == a)%Q /\ (ts == b)%Q) /\
  (Forall (fun s => (DaySummary.jc s + DaySummary.sg s
                       == inject_Z (finalMatches (DaySummary.matchCards s)))%Q) ds ->
   (tj + ts == a + b + inject_Z (finalMatchesOverall ds))%Q).
Proof.
  intros Hnn. revert a b. induction Hnn as [|s ds [Hj Hs] _ IH]; intros a b.
  - cbn [fold_left]. split; [lra|]. split; [lra|].
    split; [intros _; split; reflexivity|].
    intros _. unfold finalMatchesOverall. cbn [map foldr].
    change (inject_Z 0) with 0%Q. lra.
  - cbn [fold_left]. cbv zeta in *.
    destruct (IH (a + DaySummary.jc s)%Q (b + DaySummary.sg s)%Q)
      as (I1 & I2 & I3 & I4).
    split; [lra|]. split; [lra|]. split.
    + intros Hz. apply Forall_cons in Hz as [[Z1 Z2] Hz].
      destruct (I3 Hz). split; lra.
    + intros Hf. apply Forall_cons in Hf as [F1 Hf]. specialize (I4 Hf).
      unfold finalMatchesOverall in *. cbn [map foldr]. rewrite inject_Z_plus. lra.
Qed.

Lemma computeTournamentTotals_spec (t : Tournament.t) :
  exists r,
    computeTournamentTotals t = Some r /\
    Forall2 (summaryOf t (playersByIdOf (Tournament.players t)))
            (Tournament.days t) (Totals.daySummaries r) /\
    (0 <= Totals.totalJC r)%Q /\ (0 <= Totals.totalSG r)%Q /\
    (Forall (fun s => (DaySummary.jc s == 0)%Q /\ (DaySummary.sg s == 0)%Q)
            (Totals.daySummaries r) ->
     (Totals.totalJC r == 0)%Q /\ (Totals.totalSG r == 0)%Q) /\
    (Forall (fun s => (DaySummary.jc s + DaySummary.sg s
                         == inject_Z (finalMatches (DaySummary.matchCards s)))%Q)
            (Totals.daySummaries r) ->
     (Totals.totalJC r + Totals.totalSG r
        == inject_Z (finalMatchesOverall (Totals.daySummaries r)))%Q).
Proof.
  unfold computeTournamentTotals. cbv zeta.
  set (pb := playersByIdOf (Tournament.players t)).
  destruct (mapM_is_Some_2 (daySummaryOf t pb) (Tournament.days t)) as [ds Hds].
  { apply Forall_forall. intros d _.
    destruct (daySummaryOf_spec t pb d) as (s & Hs & _). cbn. rewrite Hs. eauto. }
  rewrite Hds. cbn [mbind option_bind]. eexists. split; [reflexivity|].
  cbn [Totals.daySummaries Totals.totalJC Totals.totalSG].
  assert (HS : Forall2 (summaryOf t pb) (Tournament.days t) ds).
  { apply mapM_Some_1 in Hds. eapply Forall2_impl; [exact Hds|].
    intros d s Hs. cbn in Hs.
    destruct (daySummaryOf_spec t pb d) as (s' & Hs' & Hsum). congruence. }
  assert (Hnn : Forall (fun s => (0 <= DaySummary.jc s)%Q /\ (0 <= DaySummary.sg s)%Q) ds).
  { clear -HS. induction HS as [|d s ? ? (_ & _ & ? & ? & _) _ IH]; constructor; done. }
  destruct (totals_fold_spec ds 0%Q 0%Q Hnn) as (T1 & T2 & T3 & T4).
  split; [exact HS|]. split; [exact T1|]. split; [exact T2|]. split.
  - intros Hz. destruct (T3 Hz). split; lra.
  - intros Hf. rewrite (T4 Hf). lra.
Qed.

Lemma summaries_add_up t playersById days ds :
  Forall2 (summaryOf t playersById) days ds ->
  Forall (fun d => Forall jcAgainstSg (Day.matches d)) days ->
  Forall (fun s => (DaySummary.jc s + DaySummary.sg s
                      == inject_Z (finalMatches (DaySummary.matchCards s)))%Q) ds.
Proof.
  intros HS Hteams.
  induction HS as [|d s ? ? (_ & _ & _ & _ & Hsum & _) _ IH]; [constructor|].
  apply Forall_cons in Hteams as [? ?]. constructor; [by apply Hsum | by apply IH].
Qed.

(** [computeTournamentTotals] returns one summary per day and one card per
    match, in order; no team total is negative; and when every match
    opposes a JC side to an SG side, the two totals of each day, and of the
    tournament, add up to the number of final matches. *)
Theorem totals_count_final_matches (t : Tournament.t) :
  exists r,
    computeTournamentTotals t = Some r /\
    Forall2 (summaryOf t (playersByIdOf (Tournament.players t)))
            (Tournament.days t) (Totals.daySummaries r) /\
    (0 <= Totals.totalJC r)%Q /\ (0 <= Totals.totalSG r)%Q /\
    (Forall (fun d => Forall jcAgainstSg (Day.matches d)) (Tournament.days t) ->
     (Totals.totalJC r + Totals.totalSG r
        == inject_Z (finalMatchesOverall (Totals.daySummaries r)))%Q).
Proof.
  destruct (computeTournamentTotals_spec t) as (r & Hr & HS & H1 & H2 & _ & H4).
  exists r. split; [exact Hr|]. split; [exact HS|]. split; [exact H1|].
  split; [exact H2|]. intros Hteams. apply H4.
  by eapply summaries_add_up.
Qed.

#[local] Instance jcAgainstSg_dec m : Decision (jcAgainstSg m).
Proof. unfold jcAgainstSg. apply _. Defined.

Lemma initial_tournament_teams :
  exists t, makeInitialTournament = Some t /\
            Forall (fun d => Forall jcAgainstSg (Day.matches d)) (Tournament.days t).
Proof.
  eexists. split; [vm_compute; reflexivity|].
  apply (bool_decide_unpack _). vm_compute. exact I.
Qed.

Lemma totals_count_final_matches_witness :
  exists t r,
    makeInitialTournament = Some t /\
    Forall (fun d => Forall jcAgainstSg (Day.matches d)) (Tournament.days t) /\
    computeTournamentTotals t = Some r /\
    (Totals.totalJC r + Totals.totalSG r
       == inject_Z (finalMatchesOverall (Totals.daySummaries r)))%Q.
Proof.
  destruct initial_tournament_teams as (t & Ht & Hteams).
  destruct (totals_count_final_matches t) as (r & Hr & _ & _ & _ & Hsum).
  exists t, r. split; [exact Ht|]. split; [exact Hteams|]. split; [exact Hr|].
  exact (Hsum Hteams).
Defined.

Lemma statusOf_cleared m holes playersById mh :
  cleared m ->
  computeMatchHoles m holes playersById = Some mh ->
  statusOf m mh = if String.eqb (Match.format m) "SCRAMBLE_STABLEFORD"
                  then noTotals else notStarted.
Proof.
  intros Hc Hmh.
  assert (Hmh' : computeMatchHoles m holes playersById
                 = Some (map (unplayedHole m) holes)).
  { apply mapM_total_ext. intros h. by apply computeHole_cleared. }
  assert (mh = map (unplayedHole m) holes) as -> by congruence.
  assert (Hall : Forall (fun r => HoleResult.played r = false)
                        (map (unplayedHole m) holes)).
  { apply Forall_forall. intros r (h & <- & _)%list_elem_of_In%in_map_iff. done. }
  unfold statusOf. destruct (String.eqb (Match.format m) "SCRAMBLE_STABLEFORD").
  - unfold stablefordTotalsStatusFromHoles, stablefordTotals.
    by rewrite totals_unplayed.
  - unfold matchStatusFromHoles, tallyHoles. rewrite tally_unplayed; [done|].
    apply Forall_forall.
    intros o (r & <- & Hr%list_elem_of_In)%list_elem_of_In%in_map_iff.
    rewrite Forall_forall in Hall. by apply Hall.
Qed.

(** A tournament in which no match has any gross entry: every match card is
    in the initial status of its tracker, both totals are 0 and the current
    lead reads "Tied". *)
Theorem cleared_tournament_is_level (t : Tournament.t) :
  Forall (fun d => Forall cleared (Day.matches d)) (Tournament.days t) ->
  exists r,
    computeTournamentTotals t = Some r /\
    Forall (fun s =>
      Forall (fun c =>
        MatchCard.status c
        = if String.eqb (Match.format (MatchCard.theMatch c)) "SCRAMBLE_STABLEFORD"
          then noTotals else notStarted) (DaySummary.matchCards s))
      (Totals.daySummaries r) /\
    (Totals.totalJC r == 0)%Q /\ (Totals.totalSG r == 0)%Q /\
    leaderLabel r = "Tied".
Proof.
  intros Hcl.
  destruct (computeTournamentTotals_spec t) as (r & Hr & HS & _ & _ & Hz & _).
  exists r. split; [exact Hr|].
  assert (Hst : Forall (fun s =>
      Forall (fun c =>
        MatchCard.status c
        = if String.eqb (Match.format (MatchCard.theMatch c)) "SCRAMBLE_STABLEFORD"
          then noTotals else notStarted) (DaySummary.matchCards s))
      (Totals.daySummaries r)).
  { clear -HS Hcl.
    induction HS as [|d s ds ss (_ & HC & _) _ IH]; [constructor|].
    apply Forall_cons in Hcl as [Hd Hcl]. constructor; [|by apply IH].
    clear -HC Hd. induction HC as [|m c ms cs (Hm & Hh & Hs & _) _ IH]; [constructor|].
    apply Forall_cons in Hd as [Hm1 Hd]. constructor; [|by apply IH].
    rewrite Hs, Hm. by eapply statusOf_cleared. }
  split; [exact Hst|].
  assert (Hzero : Forall (fun s => (DaySummary.jc s == 0)%Q /\ (DaySummary.sg s == 0)%Q)
                         (Totals.daySummaries r)).
  { clear -HS Hst.
    induction HS as [|d s ds ss (_ & _ & _ & _ & _ & Hnf) _ IH]; [constructor|].
    apply Forall_cons in Hst as [Hs Hst]. constructor; [|by apply IH].
    apply Hnf. eapply Forall_impl; [exact Hs|]. intros c ->.
    by destruct (String.eqb _ _). }
  destruct (Hz Hzero) as [Z1 Z2]. split; [exact Z1|]. split; [exact Z2|].
  unfold leaderLabel.
  assert (Qeq_bool (Totals.totalJC r) (Totals.totalSG r) = true) as ->; [|done].
  apply Qeq_bool_iff. lra.
Qed.

Lemma cleared_tournament_is_level_witness :
  exists t r,
    makeInitialTournament = Some t /\
    Forall (fun d => Forall cleared (Day.matches d)) (Tournament.days t) /\
    computeTournamentTotals t = Some r /\ leaderLabel r = "Tied".
Proof.
  assert (exists t, makeInitialTournament = Some t /\
            Forall (fun d => Forall cleared (Day.matches d)) (Tournament.days t))
    as (t & Ht & Hcl).
  { eexists. split; [vm_compute; reflexivity|].
    repeat (constructor; try (intros key hole; repeat split; reflexivity)). }
  destruct (cleared_tournament_is_level t Hcl) as (r & Hr & _ & _ & _ & Hl).
  exists t, r. split; [exact Ht|]. split; [exact Hcl|]. split; [exact Hr | exact Hl].
Defined.

(** ** Invariants of the status trackers *)

Lemma hasChar_app c s1 s2 :
  hasChar c (s1 +:+ s2) = hasChar c s1 || hasChar c s2.
Proof.
  induction s1 as [|a s1 IH]; [done|].
  change (String a s1 +:+ s2) with (String a (s1 +:+ s2)).
  cbn [hasChar]. by rewrite IH, orb_assoc.
Qed.

Lemma hasChar_pretty_N_go c x s :
  (forall d, (d < 10)%N -> Ascii.eqb (pretty_N_char d) c = false) ->
  hasChar c s = false -> hasChar c (pretty_N_go x s) = false.
Proof.
  intros Hc. revert s. induction (N.lt_wf_0 x) as [x _ IH]; intros s Hs.
  assert (x = 0 \/ 0 < x)%N as [->|?] by lia.
  - by rewrite pretty_N_go_0.
  - rewrite pretty_N_go_step by done. apply IH.
    { by apply N.div_lt. }
    cbn. rewrite Hs, Hc; [done|]. apply N.mod_lt. lia.
Qed.

Lemma digit_not_T d : (d < 10)%N -> Ascii.eqb (pretty_N_char d) charT = false.
Proof.
  intros Hd.
  assert (d = 0 \/ d = 1 \/ d = 2 \/ d = 3 \/ d = 4 \/ d = 5 \/ d = 6 \/ d = 7
          \/ d = 8 \/ d = 9)%N as Hcases by lia.
  repeat (destruct Hcases as [-> | Hcases]); try subst d; reflexivity.
Qed.

Lemma hasChar_T_pretty (z : Z) : hasChar charT (pretty z) = false.
Proof.
  assert (HN : forall p, hasChar charT (pretty (N.pos p)) = false).
  { intros p. unfold pretty, pretty_N. case_decide; [done|].
    apply hasChar_pretty_N_go; [apply digit_not_T | done]. }
  destruct z as [|p|p]; [done|apply HN|].
  change (pretty (Z.neg p)) with ("-" +:+ pretty (N.pos p)).
  rewrite hasChar_app. apply HN.
Qed.

Lemma includes_Tied_needs_T s : hasChar charT s = false -> includes s "Tied" = false.
Proof.
  induction s as [|a s IH]; [done|]. cbn [hasChar includes].
  intros [Ha Hs]%orb_false_iff. rewrite (IH Hs), orb_false_r.
  cbn [String.prefix]. destruct (Ascii.ascii_dec _ a) as [<-|]; [|done].
  by vm_compute in Ha.
Qed.

Lemma tally_fold_bounds sideAId sideBId holes a0 b0 p0 a b p :
  fold_left (tallyStep sideAId sideBId) holes (a0, b0, p0) = (a, b, p) ->
  a0 <= a /\ b0 <= b /\ (a - a0) + (b - b0) <= p - p0 /\
  p - p0 <= Z.of_nat (length holes).
Proof.
  revert a0 b0 p0. induction holes as [|h holes IH]; intros a0 b0 p0.
  - cbn. intros [= <- <- <-]. lia.
  - cbn [fold_left length]. unfold tallyStep at 2.
    destruct (Outcome.played h); cbn [negb];
      [repeat case_bool_decide|]; intros Hf%IH; lia.
Qed.

Lemma tallyHoles_bounds holes sideAId sideBId a b p :
  tallyHoles holes sideAId sideBId = (a, b, p) ->
  0 <= a /\ 0 <= b /\ a + b <= p /\ p <= Z.of_nat (length holes).
Proof. intros H%tally_fold_bounds. lia. Qed.

#[local] Ltac status_cases :=
  repeat match goal with
         | |- context [?x <? ?y] => destruct (Z.ltb_spec x y)
         | |- context [?x =? ?y] => destruct (Z.eqb_spec x y)
         end;
  cbn [andb orb String.eqb Ascii.eqb Bool.eqb
       Status.isFinal Status.isTied Status.text Status.leaderSideId
       Status.played Status.tally].

(** On at most 18 holes a final status is tied exactly when its label
    contains "Tied". *)
Lemma final_label_Tied_iff_isTied holes sideAId sideBId :
  (length holes <= 18)%nat ->
  let st := matchStatusFromHoles holes sideAId sideBId in
  Status.isFinal st = true ->
  includes (Status.text st) "Tied" = Status.isTied st.
Proof.
  intros Hlen. cbv zeta. unfold matchStatusFromHoles.
  destruct (tallyHoles holes sideAId sideBId) as [[a b] p] eqn:E.
  apply tallyHoles_bounds in E. cbv zeta.
  status_cases; try lia; try done; intros _;
    apply includes_Tied_needs_T; rewrite !hasChar_app, !hasChar_T_pretty; done.
Qed.

(** Whatever the hole outcomes and side ids, the match-play status is tied
    exactly when it has no leader, its leader is one of the two sides, a
    final status has at least one hole played, the holes played are at most
    the holes given, and the two tallies are non-negative and add up to at
    most the holes played; on at most 18 holes it is tied exactly when the
    tallies are level. *)
Theorem matchStatusFromHoles_invariants
    (holes : list Outcome.t) (sideAId sideBId : string) :
  let st := matchStatusFromHoles holes sideAId sideBId in
  (Status.isTied st = true <-> Status.leaderSideId st = None) /\
  (forall x, Status.leaderSideId st = Some x -> x = sideAId \/ x = sideBId) /\
  (Status.isFinal st = true -> 0 < Status.played st) /\
  0 <= Status.played st <= Z.of_nat (length holes) /\
  exists a b,
    Status.tally st = holesTally a b /\ 0 <= a /\ 0 <= b /\
    a + b <= Status.played st /\
    ((length holes <= 18)%nat -> (Status.isTied st = true <-> a = b)).
Proof.
  cbv zeta. unfold matchStatusFromHoles.
  destruct (tallyHoles holes sideAId sideBId) as [[a b] p] eqn:E.
  apply tallyHoles_bounds in E. cbv zeta.
  status_cases; try lia;
    (split; [done|]); (split; [intros x [= <-]; auto|]);
    (split; [intros; lia|]); (split; [lia|]);
    (eexists _, _; split; [reflexivity|]); repeat split; intros; try lia; done.
Qed.

(** The Stableford totals status is tied exactly when it has no leader and
    exactly when the two totals are equal, its leader is one of the two
    sides, it is final exactly when 18 holes counted, and the holes counted
    are at most the holes given. *)
Theorem stablefordTotalsStatus_invariants
    (matchHoles : list HoleResult.t) (sideAId sideBId : string) :
  let st := stablefordTotalsStatusFromHoles matchHoles sideAId sideBId in
  (Status.isTied st = true <-> Status.leaderSideId st = None) /\
  (forall x, Status.leaderSideId st = Some x -> x = sideAId \/ x = sideBId) /\
  (Status.isFinal st = true <-> Status.played st = 18) /\
  0 <= Status.played st <= Z.of_nat (length matchHoles) /\
  exists a b,
    Status.tally st = pointsTally a b /\ (Status.isTied st = true <-> a = b).
Proof.
  cbv zeta. unfold stablefordTotalsStatusFromHoles, stablefordTotals.
  assert (Hb : forall mh a0 b0 p0 a b p,
    fold_left totalsStep mh (a0, b0, p0) = (a, b, p) ->
    p0 <= p <= p0 + Z.of_nat (length mh)).
  { induction mh as [|h mh IH]; intros a0 b0 p0 a b p.
    - cbn. intros [= <- <- <-]. lia.
    - cbn [fold_left length]. unfold totalsStep at 2.
      destruct (HoleResult.played h); cbn [negb];
        [destruct (HoleResult.details h) as [| ? ? [?|] [?|] |]|];
        intros Hf%IH; lia. }
  destruct (fold_left totalsStep matchHoles (0, 0, 0)) as [[a b] p] eqn:E.
  apply Hb in E. cbv zeta.
  status_cases; try lia;
    (split; [done|]); (split; [intros x [= <-]; auto|]);
    (split; [split; intros; (lia || done)|]); (split; [lia|]);
    (eexists _, _; split; [reflexivity|]); split; intros; try lia; done.
Qed.

(** ** The two allocators and the status pill on match-play statuses *)

(** On the status of at most 18 hole outcomes the prototype's allocator,
    which reads the label, returns the same points object as the app's,
    which reads [isTied]. *)
Theorem allocators_agree_on_match_play
    (holes : list Outcome.t) (sideAId sideBId : string) (sideA sideB : Side.t) :
  (length holes <= 18)%nat ->
  let st := matchStatusFromHoles holes sideAId sideBId in
  Prototype.pointsForFinalMatch st sideA sideB
  = pointsForFinalMatch st sideA sideB.
Proof.
  intros Hlen st.
  pose proof (final_label_Tied_iff_isTied holes sideAId sideBId Hlen) as Hlabel.
  cbv zeta in Hlabel. fold st in Hlabel.
  unfold Prototype.pointsForFinalMatch, pointsForFinalMatch.
  destruct (Status.isFinal st); [|done]. cbn [negb]. by rewrite Hlabel.
Qed.

Lemma allocators_agree_on_match_play_witness :
  let holes := (replicate 9 (wonBy "d1m1-A") ++ replicate 9 (wonBy "d1m1-B"))%list in
  let sideA := Side.mk "d1m1-A" "JC" ["p1"; "p2"] in
  let sideB := Side.mk "d1m1-B" "SG" ["p11"; "p12"] in
  (length holes <= 18)%nat /\
  Prototype.pointsForFinalMatch (matchStatusFromHoles holes "d1m1-A" "d1m1-B") sideA sideB
  = pointsForFinalMatch (matchStatusFromHoles holes "d1m1-A" "d1m1-B") sideA sideB.
Proof.
  intros holes sideA sideB.
  assert (Hlen : (length holes <= 18)%nat) by (vm_compute; lia).
  split; [exact Hlen|].
  exact (allocators_agree_on_match_play holes "d1m1-A" "d1m1-B" sideA sideB Hlen).
Defined.

(** The tone of the status pill on a match-play status of at most 18 holes:
    "warn" exactly for a final tied match, "final" exactly for a final
    decided one, "neutral" exactly for a tied match in progress or not
    started. *)
Theorem statusPillTone_match_play
    (holes : list Outcome.t) (m : Match.t) :
  (length holes <= 18)%nat ->
  let st := matchStatusFromHoles holes (Side.id (Match.sideA m))
                                 (Side.id (Match.sideB m)) in
  (statusPillTone st m = "warn"
   <-> Status.isFinal st = true /\ Status.isTied st = true) /\
  (statusPillTone st m = "final"
   <-> Status.isFinal st = true /\ Status.isTied st = false) /\
  (statusPillTone st m = "neutral"
   <-> Status.isFinal st = false /\ Status.isTied st = true).
Proof.
  intros Hlen st.
  pose proof (final_label_Tied_iff_isTied holes (Side.id (Match.sideA m))
                (Side.id (Match.sideB m)) Hlen) as Hlabel.
  cbv zeta in Hlabel. fold st in Hlabel. unfold statusPillTone.
  destruct (Status.isFinal st).
  - rewrite (Hlabel eq_refl). destruct (Status.isTied st);
      repeat split; intros; try done; try (destruct_and?; done).
  - destruct (Status.isTied st);
      [repeat split; intros; try done; try (destruct_and?; done)|].
    cbv zeta. destruct (String.eqb _ "JC");
      repeat split; intros; try done; try (destruct_and?; done).
Qed.

Lemma statusPillTone_match_play_witness :
  let holes := (replicate 9 (wonBy "d1m1-A") ++ replicate 9 (wonBy "d1m1-B"))%list in
  (length holes <= 18)%nat /\
  statusPillTone (matchStatusFromHoles holes "d1m1-A" "d1m1-B") (d1m1 ∅) = "warn".
Proof.
  intros holes.
  assert (Hlen : (length holes <= 18)%nat) by (vm_compute; lia).
  split; [exact Hlen|].
  destruct (statusPillTone_match_play holes (d1m1 ∅) Hlen) as [[_ Hwarn] _].
  apply Hwarn. split; vm_compute; reflexivity.
Defined.

(** The tone of the status pill on a Stableford totals status is never
    "warn": a final match is shown "final" whether or not it is tied, since
    its label, a dash or two numbers, never contains "Tied". *)
Theorem statusPillTone_stableford
    (matchHoles : list HoleResult.t) (m : Match.t) :
  let st := stablefordTotalsStatusFromHoles matchHoles
              (Side.id (Match.sideA m)) (Side.id (Match.sideB m)) in
  statusPillTone st m <> "warn" /\
  (Status.isFinal st = true -> statusPillTone st m = "final").
Proof.
  cbv zeta.
  set (st := stablefordTotalsStatusFromHoles matchHoles _ _).
  assert (Hlabel : includes (Status.text st) "Tied" = false).
  { subst st. unfold stablefordTotalsStatusFromHoles.
    destruct (stablefordTotals matchHoles) as [[a b] p]. cbv zeta.
    destruct (p =? 0); cbn [Status.text]; apply includes_Tied_needs_T;
      [reflexivity|].
    rewrite !hasChar_app, !hasChar_T_pretty. reflexivity. }
  unfold statusPillTone. rewrite Hlabel.
  destruct (Status.isFinal st); [split; [discriminate|done]|].
  split; [|done]. destruct (Status.isTied st); [discriminate|].
  cbv zeta. by destruct (String.eqb _ "JC").
Qed.

Lemma statusPillTone_stableford_witness :
  let mh := map (scrambleHole tiedScramble) COURSES_2_holes in
  Status.isFinal (stablefordTotalsStatusFromHoles mh "d2m1-A" "d2m1-B") = true /\
  Status.isTied (stablefordTotalsStatusFromHoles mh "d2m1-A" "d2m1-B") = true /\
  statusPillTone (stablefordTotalsStatusFromHoles mh "d2m1-A" "d2m1-B")
                 tiedScramble = "final".
Proof.
  intros mh.
  assert (Hf : Status.isFinal (stablefordTotalsStatusFromHoles mh
                 (Side.id (Match.sideA tiedScramble))
                 (Side.id (Match.sideB tiedScramble))) = true)
    by (vm_compute; reflexivity).
  split; [exact Hf|]. split; [vm_compute; reflexivity|].
  exact (proj2 (statusPillTone_stableford mh tiedScramble) Hf).
Defined.

(** ** More than 18 holes, and exchanging the sides *)

(** When more than 18 holes have an outcome and the holes won are level,
    the closeout test fires with a difference of zero: the status is final
    and labelled "Final (Tied)", yet not tied and led by side B, so the app
    gives side B's team the whole point while the prototype splits it. *)
Theorem level_match_beyond_18_holes
    (holes : list Outcome.t) (sideA sideB : Side.t) :
  Side.id sideA <> Side.id sideB ->
  Side.teamId sideA <> Side.teamId sideB ->
  18 < holesPlayed holes ->
  holesWonBy (Side.id sideA) holes = holesWonBy (Side.id sideB) holes ->
  let st := matchStatusFromHoles holes (Side.id sideA) (Side.id sideB) in
  Status.isFinal st = true /\ Status.text st = "Final (Tied)" /\
  Status.isTied st = false /\ Status.leaderSideId st = Some (Side.id sideB) /\
  pointsForFinalMatch st sideA sideB !! Side.teamId sideB = Some 1%Q /\
  pointsForFinalMatch st sideA sideB !! Side.teamId sideA = Some 0%Q /\
  Prototype.pointsForFinalMatch st sideA sideB !! Side.teamId sideA = Some (1#2)%Q /\
  Prototype.pointsForFinalMatch st sideA sideB !! Side.teamId sideB = Some (1#2)%Q.
Proof.
  intros Hid Hteam Hp Hlevel st.
  assert (Hst : st = {| Status.tally := holesTally (holesWonBy (Side.id sideA) holes)
                                          (holesWonBy (Side.id sideB) holes);
                        Status.played := holesPlayed holes;
                        Status.isFinal := true;
                        Status.text := "Final (Tied)";
                        Status.leaderSideId := Some (Side.id sideB);
                        Status.isTied := false |}).
  { subst st. unfold matchStatusFromHoles. rewrite tallyHoles_counts by done.
    cbv zeta. rewrite Hlevel, Z.sub_diag. change (Z.abs 0) with 0.
    destruct (Z.ltb_spec (18 - holesPlayed holes) 0); [|lia].
    destruct (Z.ltb_spec 0 (holesPlayed holes)); [|lia].
    cbn [andb]. reflexivity. }
  rewrite Hst. cbn [Status.isFinal Status.text Status.isTied Status.leaderSideId].
  do 4 (split; [reflexivity|]).
  destruct (pointsForFinalMatch_cases
              {| Status.tally := holesTally (holesWonBy (Side.id sideA) holes)
                                            (holesWonBy (Side.id sideB) holes);
                 Status.played := holesPlayed holes;
                 Status.isFinal := true;
                 Status.text := "Final (Tied)";
                 Status.leaderSideId := Some (Side.id sideB);
                 Status.isTied := false |} sideA sideB Hteam) as (_ & _ & _ & Happ).
  destruct (prototype_pointsForFinalMatch_cases
              {| Status.tally := holesTally (holesWonBy (Side.id sideA) holes)
                                            (holesWonBy (Side.id sideB) holes);
                 Status.played := holesPlayed holes;
                 Status.isFinal := true;
                 Status.text := "Final (Tied)";
                 Status.leaderSideId := Some (Side.id sideB);
                 Status.isTied := false |} sideA sideB Hteam) as (_ & Hproto & _).
  cbv zeta in Happ, Hproto.
  destruct Happ as [H1 H2]; [done|done|cbn; congruence|].
  destruct Hproto as [H3 H4]; [done|done|]. done.
Qed.

Lemma level_match_beyond_18_holes_witness :
  let holes := replicate 19 (Outcome.mk true None) in
  let sideA := Side.mk "d1m1-A" "JC" ["p1"; "p2"] in
  let sideB := Side.mk "d1m1-B" "SG" ["p11"; "p12"] in
  Side.id sideA <> Side.id sideB /\ Side.teamId sideA <> Side.teamId sideB /\
  18 < holesPlayed holes /\
  holesWonBy (Side.id sideA) holes = holesWonBy (Side.id sideB) holes /\
  Status.text (matchStatusFromHoles holes (Side.id sideA) (Side.id sideB))
  = "Final (Tied)".
Proof.
  intros holes sideA sideB.
  assert (H1 : Side.id sideA <> Side.id sideB) by discriminate.
  assert (H2 : Side.teamId sideA <> Side.teamId sideB) by discriminate.
  assert (H3 : 18 < holesPlayed holes) by (vm_compute; reflexivity).
  assert (H4 : holesWonBy (Side.id sideA) holes = holesWonBy (Side.id sideB) holes)
    by (vm_compute; reflexivity).
  split; [exact H1|]. split; [exact H2|]. split; [exact H3|]. split; [exact H4|].
  destruct (level_match_beyond_18_holes holes sideA sideB H1 H2 H3 H4)
    as (_ & Ht & _).
  exact Ht.
Defined.

(** On at most 18 holes the status does not depend on which side is passed
    first: exchanging the two side ids exchanges the two tallies and changes
    nothing else. *)
Theorem matchStatusFromHoles_swap_sides
    (holes : list Outcome.t) (sideAId sideBId : string) :
  (length holes <= 18)%nat ->
  sideAId <> sideBId ->
  matchStatusFromHoles holes sideBId sideAId
  = swapTally (matchStatusFromHoles holes sideAId sideBId).
Proof.
  intros Hlen Hne. unfold matchStatusFromHoles.
  rewrite !tallyHoles_counts by done.
  destruct (tally_bounds holes sideAId sideBId Hne) as (Ha & Hb & Hab & Hp).
  set (a := holesWonBy sideAId holes) in *.
  set (b := holesWonBy sideBId holes) in *.
  set (p := holesPlayed holes) in *. cbv zeta.
  replace (Z.abs (b - a)) with (Z.abs (a - b)) by lia.
  destruct (Z.ltb_spec (18 - p) (Z.abs (a - b))) as [Hc|Hc];
    destruct (Z.ltb_spec 0 p); cbn [andb]; try lia.
  - destruct (Z.ltb_spec 0 (a - b)), (Z.ltb_spec (a - b) 0),
      (Z.ltb_spec 0 (b - a)), (Z.ltb_spec (b - a) 0); try lia; reflexivity.
  - destruct (Z.eqb_spec p 0); [lia|].
    destruct (Z.eqb_spec p 18);
      destruct (Z.eqb_spec (a - b) 0), (Z.eqb_spec (b - a) 0); try lia;
      try reflexivity;
      destruct (Z.ltb_spec 0 (a - b)), (Z.ltb_spec 0 (b - a)); try lia; reflexivity.
  - destruct (Z.eqb_spec p 0); [reflexivity|lia].
Qed.

Lemma matchStatusFromHoles_swap_sides_witness :
  let holes := (replicate 10 (wonBy "d1m1-A") ++ replicate 8 notPlayed)%list in
  (length holes <= 18)%nat /\ "d1m1-A" <> "d1m1-B" /\
  matchStatusFromHoles holes "d1m1-B" "d1m1-A"
  = swapTally (matchStatusFromHoles holes "d1m1-A" "d1m1-B").
Proof.
  intros holes.
  assert (Hlen : (length holes <= 18)%nat) by (vm_compute; lia).
  assert (Hne : "d1m1-A" <> "d1m1-B") by discriminate.
  split; [exact Hlen|]. split; [exact Hne|].
  exact (matchStatusFromHoles_swap_sides holes "d1m1-A" "d1m1-B" Hlen Hne).
Defined.

(** ** Who may edit a score *)

(** Without admin rights a score of a player can be edited only by a
    claimed player who is on a side of the match: in Singles-Net only their
    own score, otherwise only the score of a player with a record, of their
    own team and on a side of the match; a viewer without claim can edit
    nothing, an admin everything. *)
Theorem canEditPlayer_non_admin (me : option Player.t) (m : Match.t)
    (playersById : gmap string Player.t) (pid : string) :
  canEditPlayer true me m playersById pid = true /\
  canEditPlayer false None m playersById pid = false /\
  (canEditPlayer false me m playersById pid = true ->
   exists me',
     me = Some me' /\
     (Player.id me' ∈ Side.playerIds (Match.sideA m) \/
      Player.id me' ∈ Side.playerIds (Match.sideB m)) /\
     (Match.format m = "SINGLES_NET" -> pid = Player.id me') /\
     (Match.format m <> "SINGLES_NET" ->
      exists p, playersById !! pid = Some p /\
                Player.teamId p = Player.teamId me' /\
                (pid ∈ Side.playerIds (Match.sideA m) \/
                 pid ∈ Side.playerIds (Match.sideB m)))).
Proof.
  split; [done|]. split; [done|].
  unfold canEditPlayer, isParticipant. destruct me as [me'|]; [|done].
  destruct (bool_decide (Player.id me' ∈ Side.playerIds (Match.sideA m)) ||
            bool_decide (Player.id me' ∈ Side.playerIds (Match.sideB m))) eqn:Hpart;
    cbn [negb]; [|done].
  apply orb_true_iff in Hpart as Hpart'.
  rewrite !bool_decide_eq_true in Hpart'.
  destruct (String.eqb_spec (Match.format m) "SINGLES_NET") as [Hf|Hf].
  - intros Heq%String.eqb_eq. exists me'. by repeat split.
  - destruct (playersById !! pid) as [p|]; [|done].
    intros [Ht%String.eqb_eq Hin%orb_true_iff]%andb_true_iff.
    rewrite !bool_decide_eq_true in Hin.
    exists me'. split; [done|]. split; [done|]. split; [done|].
    intros _. by exists p.
Qed.

Lemma canEditPlayer_non_admin_witness :
  let me := samplePlayersById !! "p1" in
  canEditPlayer false me fourballOpening samplePlayersById "p2" = true /\
  canEditPlayer false me fourballOpening samplePlayersById "p11" = false /\
  exists me', me = Some me' /\
              (Player.id me' ∈ Side.playerIds (Match.sideA fourballOpening) \/
               Player.id me' ∈ Side.playerIds (Match.sideB fourballOpening)).
Proof.
  intros me.
  assert (H : canEditPlayer false me fourballOpening samplePlayersById "p2" = true)
    by (vm_compute; reflexivity).
  split; [exact H|]. split; [vm_compute; reflexivity|].
  destruct (proj2 (proj2 (canEditPlayer_non_admin me fourballOpening
                            samplePlayersById "p2")) H) as (me' & Hme & Hin & _).
  exists me'. split; [exact Hme | exact Hin].
Defined.

(** Without admin rights a side's score can be edited only in a
    Scramble-Stableford match, by a claimed player on a side of the match,
    and for the side of their own team -- where any id other than side A's
    is taken to mean side B. *)
Theorem canEditSide_non_admin (me : option Player.t) (m : Match.t)
    (sideId : string) :
  canEditSide true me m sideId = true /\
  canEditSide false None m sideId = false /\
  (canEditSide false me m sideId = true ->
   exists me',
     me = Some me' /\
     (Player.id me' ∈ Side.playerIds (Match.sideA m) \/
      Player.id me' ∈ Side.playerIds (Match.sideB m)) /\
     Match.format m = "SCRAMBLE_STABLEFORD" /\
     ((sideId = Side.id (Match.sideA m) /\
       Side.teamId (Match.sideA m) = Player.teamId me') \/
      (sideId <> Side.id (Match.sideA m) /\
       Side.teamId (Match.sideB m) = Player.teamId me'))).
Proof.
  split; [done|]. split; [done|].
  unfold canEditSide, isParticipant. destruct me as [me'|]; [|done].
  destruct (bool_decide (Player.id me' ∈ Side.playerIds (Match.sideA m)) ||
            bool_decide (Player.id me' ∈ Side.playerIds (Match.sideB m))) eqn:Hpart;
    cbn [negb]; [|done].
  apply orb_true_iff in Hpart as Hpart'.
  rewrite !bool_decide_eq_true in Hpart'.
  destruct (String.eqb_spec (Match.format m) "SCRAMBLE_STABLEFORD") as [Hf|Hf];
    cbn [negb]; [|done].
  cbv zeta. destruct (String.eqb_spec sideId (Side.id (Match.sideA m)));
    intros Ht%String.eqb_eq; exists me'; repeat split; auto.
Qed.

Lemma canEditSide_non_admin_witness :
  let me := samplePlayersById !! "p11" in
  canEditSide false me tiedScramble "d2m1-B" = true /\
  canEditSide false me tiedScramble "d2m1-A" = false /\
  Match.format tiedScramble = "SCRAMBLE_STABLEFORD".
Proof.
  intros me.
  assert (H : canEditSide false me tiedScramble "d2m1-B" = true)
    by (vm_compute; reflexivity).
  split; [exact H|]. split; [vm_compute; reflexivity|].
  destruct (proj2 (proj2 (canEditSide_non_admin me tiedScramble "d2m1-B")) H)
    as (me' & _ & _ & Hf & _).
  exact Hf.
Defined.

(** ** Claims *)

Lemma truthy_Some s : truthy (Some s) = true <-> s <> "".
Proof.
  cbn [truthy]. destruct (String.eqb_spec s ""); cbn [negb]; split; done.
Qed.

(** [setClaimForUser] writes nothing for a falsy uid; otherwise, in the
    object it writes, [uid] claims [playerId], nobody else does, every other
    user keeps the claim they had unless it was for [playerId], and if no
    player was claimed twice before, none is after. *)
Theorem setClaimForUser_unique (claims : gmap string string) (uid playerId : string) :
  setClaimForUser claims None playerId = None /\
  setClaimForUser claims (Some "") playerId = None /\
  (uid <> "" ->
   exists next,
     setClaimForUser claims (Some uid) playerId = Some next /\
     next !! uid = Some playerId /\
     (forall u, next !! u = Some playerId -> u = uid) /\
     (forall u q, u <> uid ->
                  (next !! u = Some q <-> claims !! u = Some q /\ q <> playerId)) /\
     (onePerPlayer claims -> onePerPlayer next) /\
     (playerId <> "" -> claimedPlayerIdOf next (Some uid) = Some playerId)).
Proof.
  split; [done|]. split; [done|]. intros Huid.
  unfold setClaimForUser. rewrite (proj2 (truthy_Some uid) Huid). cbn [negb default].
  eexists. split; [reflexivity|].
  assert (Hother : forall u q, u <> uid ->
    (<[uid := playerId]> (filter (fun kv : string * string => kv.2 <> playerId) claims) !! u
       = Some q <-> claims !! u = Some q /\ q <> playerId)).
  { intros u q Hu. rewrite lookup_insert_ne by done.
    rewrite map_lookup_filter_Some. done. }
  assert (Honly : forall u,
    <[uid := playerId]> (filter (fun kv : string * string => kv.2 <> playerId) claims) !! u
      = Some playerId -> u = uid).
  { intros u Hu. destruct (decide (u = uid)) as [|Hne]; [done|].
    apply Hother in Hu as [_ ?]; done. }
  split; [by rewrite lookup_insert_eq|]. split; [exact Honly|].
  split; [exact Hother|]. split.
  - intros Hinj u1 u2 p H1 H2.
    destruct (decide (p = playerId)) as [->|Hp].
    { by rewrite (Honly u1 H1), (Honly u2 H2). }
    destruct (decide (u1 = uid)) as [->|Hu1].
    { rewrite lookup_insert_eq in H1. congruence. }
    destruct (decide (u2 = uid)) as [->|Hu2].
    { rewrite lookup_insert_eq in H2. congruence. }
    apply Hother in H1 as [H1 _]; [|done]. apply Hother in H2 as [H2 _]; [|done].
    by eapply Hinj.
  - intros Hp. unfold claimedPlayerIdOf.
    rewrite (proj2 (truthy_Some uid) Huid). cbn [default].
    rewrite lookup_insert_eq. by destruct (String.eqb_spec playerId "").
Qed.

Lemma setClaimForUser_unique_witness :
  let claims : gmap string string := <["u2" := "p3"]> {[ "u1" := "p1" ]} in
  "u3" <> "" /\
  exists next, setClaimForUser claims (Some "u3") "p1" = Some next /\
               next !! "u3" = Some "p1".
Proof.
  intros claims.
  assert (H : "u3" <> "") by discriminate.
  split; [exact H|].
  destruct (proj2 (proj2 (setClaimForUser_unique claims "u3" "p1")) H)
    as (next & Hn & Hl & _).
  exists next. split; [exact Hn | exact Hl].
Defined.

(** [clearMyClaim] writes nothing for a falsy uid; otherwise the user has no
    claim in the object it writes and every other user's claim is kept;
    clearing right after claiming gives back what the other users had,
    except a claim for that same player. *)
Theorem clearMyClaim_releases (claims : gmap string string) (uid playerId : string) :
  clearMyClaim claims None = None /\
  clearMyClaim claims (Some "") = None /\
  (uid <> "" ->
   exists next,
     clearMyClaim claims (Some uid) = Some next /\
     claimedPlayerIdOf next (Some uid) = None /\
     (forall u, u <> uid -> next !! u = claims !! u) /\
     (onePerPlayer claims -> onePerPlayer next) /\
     exists claimed cleared,
       setClaimForUser claims (Some uid) playerId = Some claimed /\
       clearMyClaim claimed (Some uid) = Some cleared /\
       cleared !! uid = None /\
       (forall u q, u <> uid ->
          (cleared !! u = Some q <-> claims !! u = Some q /\ q <> playerId))).
Proof.
  split; [done|]. split; [done|]. intros Huid.
  unfold clearMyClaim, setClaimForUser, claimedPlayerIdOf.
  rewrite (proj2 (truthy_Some uid) Huid). cbn [negb default].
  eexists. split; [reflexivity|].
  split; [by rewrite lookup_delete_eq|].
  split; [by intros; rewrite lookup_delete_ne|]. split.
  - intros Hinj u1 u2 p [Hn1 H1]%lookup_delete_Some [Hn2 H2]%lookup_delete_Some.
    by eapply Hinj.
  - do 2 eexists. split; [reflexivity|]. split; [reflexivity|].
    split; [by rewrite lookup_delete_eq|].
    intros u q Hu. rewrite lookup_delete_ne, lookup_insert_ne by done.
    by rewrite map_lookup_filter_Some.
Qed.

Lemma clearMyClaim_releases_witness :
  let claims : gmap string string := <["u2" := "p3"]> {[ "u1" := "p1" ]} in
  "u1" <> "" /\
  exists next, clearMyClaim claims (Some "u1") = Some next /\
               claimedPlayerIdOf next (Some "u1") = None.
Proof.
  intros claims.
  assert (H : "u1" <> "") by discriminate.
  split; [exact H|].
  destruct (proj2 (proj2 (clearMyClaim_releases claims "u1" "p1")) H)
    as (next & Hn & Hl & _).
  exists next. split; [exact Hn | exact Hl].
Defined.

(** ** Admins *)

Lemma elem_of_setAdd x y s : y ∈ setAdd x s <-> y = x \/ y ∈ s.
Proof.
  unfold setAdd. case_bool_decide; [|set_solver].
  split; [auto|]. intros [-> | ?]; done.
Qed.

Lemma NoDup_setAdd x s : NoDup s -> NoDup (setAdd x s).
Proof.
  unfold setAdd. case_bool_decide; [done|]. intros Hnd.
  apply NoDup_app. split; [done|]. split; [|apply NoDup_singleton].
  intros y Hy ->%list_elem_of_singleton. done.
Qed.

Lemma newSet_fold l s0 :
  NoDup s0 ->
  NoDup (fold_left (fun s x => setAdd x s) l s0) /\
  forall y, y ∈ fold_left (fun s x => setAdd x s) l s0 <-> y ∈ s0 \/ y ∈ l.
Proof.
  revert s0. induction l as [|x l IH]; intros s0 Hnd.
  - cbn. split; [done|]. set_solver.
  - cbn [fold_left]. destruct (IH (setAdd x s0) (NoDup_setAdd x s0 Hnd)) as [H1 H2].
    split; [done|]. intros y. rewrite H2, elem_of_setAdd. set_solver.
Qed.

(** The admin list written by [removeAdminUid] has no duplicates; it holds
    the former admins other than the removed uid, plus the owner whenever
    there is one -- so the owner cannot be removed; and [isAdmin] then
    answers for the removed user only whether they are the owner. *)
Theorem removeAdminUid_keeps_owner (adminUserIds : list string)
    (ownerUserId : option string) (uidToRemove : string) :
  let admins := removeAdminUid adminUserIds ownerUserId uidToRemove in
  NoDup admins /\
  (forall x, x ∈ admins <->
             (x ∈ adminUserIds /\ x <> uidToRemove) \/
             (truthy ownerUserId = true /\ ownerUserId = Some x)) /\
  (forall owner, ownerUserId = Some owner -> owner <> "" ->
                 owner ∈ admins /\ isAdmin (Some owner) ownerUserId admins = true) /\
  (uidToRemove <> "" ->
   isAdmin (Some uidToRemove) ownerUserId admins
   = bool_decide (ownerUserId = Some uidToRemove)).
Proof.
  cbv zeta.
  destruct (newSet_fold adminUserIds [] (NoDup_nil_2)) as [Hnd Hin].
  fold (newSet adminUserIds) in Hnd, Hin.
  assert (Hdel : forall x, x ∈ setDelete uidToRemove (newSet adminUserIds)
                           <-> x ∈ adminUserIds /\ x <> uidToRemove).
  { intros x. unfold setDelete. rewrite list_elem_of_filter, Hin. set_solver. }
  assert (Hnd' : NoDup (setDelete uidToRemove (newSet adminUserIds))).
  { by apply NoDup_filter. }
  assert (Hall : forall x, x ∈ removeAdminUid adminUserIds ownerUserId uidToRemove <->
             (x ∈ adminUserIds /\ x <> uidToRemove) \/
             (truthy ownerUserId = true /\ ownerUserId = Some x)).
  { intros x. unfold removeAdminUid. cbv zeta.
    destruct (truthy ownerUserId) eqn:Ht.
    - destruct ownerUserId as [o|]; [|done]. cbn [default].
      rewrite elem_of_setAdd, Hdel. split.
      + intros [-> | ?]; auto.
      + intros [? | [_ [= ->]]]; auto.
    - rewrite Hdel. split; [auto|]. intros [? | [? _]]; done. }
  split.
  { unfold removeAdminUid. cbv zeta.
    destruct (truthy ownerUserId); [by apply NoDup_setAdd | done]. }
  split; [exact Hall|]. split.
  - intros owner -> Ho.
    assert (Helem : owner ∈ removeAdminUid adminUserIds (Some owner) uidToRemove).
    { apply Hall. right. split; [by apply truthy_Some | done]. }
    split; [exact Helem|]. unfold isAdmin.
    rewrite (proj2 (truthy_Some owner) Ho), bool_decide_eq_true_2 by done. done.
  - intros Hu. unfold isAdmin. rewrite (proj2 (truthy_Some uidToRemove) Hu).
    cbn [andb default].
    destruct (decide (ownerUserId = Some uidToRemove)) as [Ho|Ho].
    + by rewrite (bool_decide_eq_true_2 (Some uidToRemove = ownerUserId)),
        (bool_decide_eq_true_2 (ownerUserId = Some uidToRemove)) by done.
    + rewrite (bool_decide_eq_false_2 (Some uidToRemove = ownerUserId)),
        (bool_decide_eq_false_2 (ownerUserId = Some uidToRemove)) by done.
      cbn [orb]. apply bool_decide_eq_false_2.
      intros [[_ ?] | [_ ?]]%Hall; done.
Qed.

Lemma removeAdminUid_keeps_owner_witness :
  let admins := removeAdminUid ["owner"; "u1"; "u1"; "u2"] (Some "owner") "owner" in
  "owner" <> "" /\ "owner" ∈ admins /\
  isAdmin (Some "owner") (Some "owner") admins = true.
Proof.
  intros admins.
  assert (H : "owner" <> "") by discriminate.
  split; [exact H|].
  exact (proj1 (proj2 (proj2 (removeAdminUid_keeps_owner
           ["owner"; "u1"; "u1"; "u2"] (Some "owner") "owner")))
           "owner" eq_refl H).
Defined.

(** ** Courses *)

(** For arrays of equal length [holesFromParAndHcp] gives one hole per
    index, numbered from 1 in order, with the par and the rank of that
    index. *)
Theorem holesFromParAndHcp_lookup (parArr hcpArr : list Z) :
  length parArr = length hcpArr ->
  length (holesFromParAndHcp parArr hcpArr) = length parArr /\
  map Hole.hole (holesFromParAndHcp parArr hcpArr)
  = seqZ 1 (Z.of_nat (length parArr)) /\
  map Hole.par (holesFromParAndHcp parArr hcpArr) = parArr /\
  map Hole.hcpRank (holesFromParAndHcp parArr hcpArr) = hcpArr /\
  forall (i : nat) h,
    holesFromParAndHcp parArr hcpArr !! i = Some h ->
    Hole.hole h = Z.of_nat i + 1 /\ parArr !! i = Some (Hole.par h) /\
    hcpArr !! i = Some (Hole.hcpRank h).
Proof.
  intros Hlen. unfold holesFromParAndHcp.
  assert (Hgen : forall (n : nat) (p q : list Z),
    length p = length q ->
    let hs := imap (fun i '(par, hcpRank) => Hole.mk (Z.of_nat (n + i) + 1) par hcpRank)
                   (zip p q) in
    length hs = length p /\
    map Hole.hole hs = seqZ (Z.of_nat n + 1) (Z.of_nat (length p)) /\
    map Hole.par hs = p /\ map Hole.hcpRank hs = q).
  { intros n p. revert n. induction p as [|x p IH]; intros n [|y q] Hl;
      try discriminate; [done|].
    cbn [zip zip_with imap length map Hole.hole Hole.par Hole.hcpRank].
    injection Hl as Hl.
    rewrite (imap_ext _ (fun i '(par, hcpRank) =>
               Hole.mk (Z.of_nat (S n + i) + 1) par hcpRank) (zip p q)).
    2:{ intros i [? ?] _. cbn. by rewrite Nat.add_succ_r. }
    destruct (IH (S n) q Hl) as (H1 & H2 & H3 & H4).
    rewrite H1. split; [done|]. rewrite H2, H3, H4.
    split; [|done].
    rewrite (seqZ_cons (Z.of_nat n + 1) (Z.of_nat (S (length p)))) by lia.
    apply (f_equal2 cons); [lia|]. apply (f_equal2 seqZ); lia. }
  destruct (Hgen 0%nat parArr hcpArr Hlen) as (H1 & H2 & H3 & H4).
  cbn [Nat.add] in *. cbv zeta in *.
  split; [exact H1|]. split; [exact H2|]. split; [exact H3|]. split; [exact H4|].
  intros i h Hi.
  rewrite list_lookup_imap in Hi.
  destruct (zip parArr hcpArr !! i) as [[par rank]|] eqn:Hz; [|done].
  cbn in Hi. injection Hi as <-. cbn [Hole.hole Hole.par Hole.hcpRank].
  apply lookup_zip_with_Some in Hz as (x & y & [= -> ->] & Hx & Hy).
  done.
Qed.

Lemma holesFromParAndHcp_lookup_witness :
  length [4; 5; 3] = length [11; 9; 15] /\
  map Hole.hole (holesFromParAndHcp [4; 5; 3] [11; 9; 15]) = seqZ 1 3.
Proof.
  assert (H : length [4; 5; 3] = length [11; 9; 15]) by reflexivity.
  split; [exact H|].
  exact (proj1 (proj2 (holesFromParAndHcp_lookup [4; 5; 3] [11; 9; 15] H))).
Defined.

(** ** Fourball: the order of the players of a side *)






(** ** Singles-Net hole engine *)

Lemma computeHole_singles m playersById h :
  Match.format m = "SINGLES_NET" ->
  computeHole m playersById h = Some (singlesHole m playersById h).
Proof. intros Hf. unfold computeHole. by rewrite Hf. Qed.

(** In a Singles-Net match whose two players have records, the hole is
    played exactly when both have a gross entry; each net is the gross minus
    the strokes received, the strictly lower net wins and equal nets halve
    the hole. *)
Theorem singles_lower_net_wins (m : Match.t)
    (playersById : gmap string Player.t) (h : Hole.t) (pA pB : Player.t) :
  Match.format m = "SINGLES_NET" ->
  let aPid := propertyKey (head (Side.playerIds (Match.sideA m))) in
  let bPid := propertyKey (head (Side.playerIds (Match.sideB m))) in
  let gross := fun pid =>
    lookupGross (Match.singlesGrossByPlayer m) pid (Hole.hole h) in
  playersById !! aPid = Some pA ->
  playersById !! bPid = Some pB ->
  exists r,
    computeHole m playersById h = Some r /\
    HoleResult.hole r = Hole.hole h /\
    (HoleResult.played r = true <-> is_Some (gross aPid) /\ is_Some (gross bPid)) /\
    (forall ag bg, gross aPid = Some ag -> gross bPid = Some bg ->
       let aNet := ag - strokesReceivedOnHole (Player.courseHcp pA) (Hole.hcpRank h) in
       let bNet := bg - strokesReceivedOnHole (Player.courseHcp pB) (Hole.hcpRank h) in
       HoleResult.details r = singles (Some ag) (Some bg) (Some aNet) (Some bNet) /\
       HoleResult.winnerSideId r =
         (if aNet <? bNet then Some (Side.id (Match.sideA m))
          else if bNet <? aNet then Some (Side.id (Match.sideB m))
          else None)) /\
    (HoleResult.played r = false ->
     HoleResult.winnerSideId r = None /\
     HoleResult.details r = singles None None None None).
Proof.
  intros Hf aPid bPid gross HA HB.
  rewrite computeHole_singles by done. eexists. split; [reflexivity|].
  unfold singlesHole. cbv zeta. fold aPid bPid. fold (gross aPid) (gross bPid).
  rewrite HA, HB.
  destruct (gross aPid) as [ag|]; [destruct (gross bPid) as [bg|]|].
  - cbn [HoleResult.hole HoleResult.played HoleResult.winnerSideId
         HoleResult.details playerNet netScore].
    split; [done|]. split; [split; eauto|]. split; [|done].
    intros ? ? [= <-] [= <-]. cbv zeta. split; [done|]. unfold jsLt. done.
  - cbn. split; [done|]. split; [split; [done|intros [_ [? [=]]]]|].
    split; [intros ? ? ? [=]|done].
  - cbn. split; [done|]. split; [split; [done|intros [[? [=]] _]]|].
    split; [intros ? ? [=]|done].
Qed.

Lemma singles_lower_net_wins_witness :
  let m := d3m1 "p1" (<["p11" := scorecard [5]]> {[ "p1" := scorecard [5] ]}) in
  Match.format m = "SINGLES_NET" /\
  exists r, computeHole m samplePlayersById course1Hole1 = Some r /\
            HoleResult.hole r = 1.
Proof.
  intros m.
  assert (Hf : Match.format m = "SINGLES_NET") by reflexivity.
  split; [exact Hf|].
  destruct (singles_lower_net_wins m samplePlayersById course1Hole1
              (Player.mk "p1" "JC" 13) (Player.mk "p11" "SG" 23) Hf
              ltac:(vm_compute; reflexivity) ltac:(vm_compute; reflexivity))
    as (r & Hr & Hh & _).
  exists r. split; [exact Hr | exact Hh].
Defined.

(** ** Stableford running totals *)

Lemma stablefordFromDiff_range d : -2 <= stablefordFromDiff d <= 10.
Proof.
  unfold stablefordFromDiff.
  repeat match goal with
         | |- context [?a <=? ?b] => destruct (Z.leb_spec a b)
         | |- context [?a =? ?b] => destruct (Z.eqb_spec a b)
         end; lia.
Qed.

Lemma cumulativePoints_range m sid holes :
  sid = Side.id (Match.sideA m) \/ sid = Side.id (Match.sideB m) ->
  -2 * Z.of_nat (length (scramblePlayedHoles m holes))
  <= cumulativePoints m sid holes
  <= 10 * Z.of_nat (length (scramblePlayedHoles m holes)) /\
  (length (scramblePlayedHoles m holes) <= length holes)%nat.
Proof.
  intros Hsid. unfold cumulativePoints.
  induction holes as [|h holes IH].
  - cbn. lia.
  - rewrite scramblePlayedHoles_cons.
    destruct (sideGross m (Side.id (Match.sideA m)) h) as [ag|] eqn:Ea;
      [destruct (sideGross m (Side.id (Match.sideB m)) h) as [bg|] eqn:Eb|];
      cbn [map foldr length]; try lia.
    assert (-2 <= sidePointsOn m sid h <= 10); [|lia].
    unfold sidePointsOn. destruct Hsid as [-> | ->]; rewrite ?Ea, ?Eb;
      apply stablefordFromDiff_range.
Qed.

(** In a Scramble-Stableford match each side's running total lies between
    -2 and 10 points per hole played, and the holes played are at most the
    holes of the course, so a course of fewer than 18 holes never gives a
    final status. *)
Theorem stableford_totals_bounds (m : Match.t) (holes : list Hole.t)
    (playersById : gmap string Player.t) :
  Match.format m = "SCRAMBLE_STABLEFORD" ->
  exists mh a b,
    computeMatchHoles m holes playersById = Some mh /\
    let st := statusOf m mh in
    Status.tally st = pointsTally a b /\
    -2 * Status.played st <= a <= 10 * Status.played st /\
    -2 * Status.played st <= b <= 10 * Status.played st /\
    0 <= Status.played st <= Z.of_nat (length holes) /\
    ((length holes < 18)%nat -> Status.isFinal st = false).
Proof.
  intros Hf. exists (map (scrambleHole m) holes).
  destruct (cumulativePoints_range m (Side.id (Match.sideA m)) holes (or_introl eq_refl))
    as [Ha Hn].
  destruct (cumulativePoints_range m (Side.id (Match.sideB m)) holes (or_intror eq_refl))
    as [Hb _].
  unfold statusOf. rewrite Hf, String.eqb_refl.
  unfold stablefordTotalsStatusFromHoles, stablefordTotals. rewrite totals_fold.
  rewrite !Z.add_0_l. cbv zeta.
  set (n := Z.of_nat (length (scramblePlayedHoles m holes))) in *.
  destruct (Z.eqb_spec n 0).
  - exists 0, 0. split; [by apply computeMatchHoles_scramble|].
    cbn [Status.tally Status.played Status.isFinal].
    split; [reflexivity|]. split; [lia|]. split; [lia|]. split; [lia|]. done.
  - do 2 eexists. split; [by apply computeMatchHoles_scramble|].
    cbn [Status.tally Status.played Status.isFinal].
    split; [reflexivity|]. split; [lia|]. split; [lia|]. split; [lia|].
    intros Hlt. apply Z.eqb_neq. lia.
Qed.

Lemma stableford_totals_bounds_witness :
  Match.format tiedScramble = "SCRAMBLE_STABLEFORD" /\
  exists mh, computeMatchHoles tiedScramble COURSES_2_holes samplePlayersById = Some mh.
Proof.
  assert (Hf : Match.format tiedScramble = "SCRAMBLE_STABLEFORD") by reflexivity.
  split; [exact Hf|].
  destruct (stableford_totals_bounds tiedScramble COURSES_2_holes samplePlayersById Hf)
    as (mh & _ & _ & Hmh & _).
  exists mh. exact Hmh.
Defined.

(** ** The hole strip *)








